(** * create_pep440_version.py: semtag version identifiers to PEP 440

    A shallow embedding of [src/create_pep440_version.py] and the proofs of
    its specification.

    Conventions of the embedding:
    - a Python [str] is a Rocq [string]; its characters are the code points
      0..255 (on that range the class of decimal digits is exactly the
      ASCII digits);
    - a value that is [None] or a [str] is an [option string];
    - a [dict] is a [gmap]; a [set] is a [gset];
    - a computation that can raise is a [py A]: [Ok a] or [Raise e]; the
      error that the specification calls InvalidInputError is the
      [ValueError] that the script raises;
    - [re.match] is a backtracking matcher over the syntax tree of the
      pattern, returning the first match in Python's priority order. *)

From stdpp Require Import gmap strings list.
From Stdlib Require Import ZArith DecimalString Ascii.

Open Scope string_scope.

(** ** Exceptions and the error monad *)

Inductive exn : Type :=
| ValueError (msg : string)
| AttributeError (msg : string)
| KeyError (key : string)
| IndexError (msg : string)
| AssertionError (msg : string)
| SystemExit (msg : string).

Inductive py (A : Type) : Type :=
| Ok (a : A)
| Raise (e : exn).

Arguments Ok {A} a.
Arguments Raise {A} e.

#[global] Instance py_ret : MRet py := fun A a => Ok a.
#[global] Instance py_bind : MBind py := fun A B f m =>
  match m with
  | Ok a => f a
  | Raise e => Raise e
  end.

(** ** The operations of [str], [list] and [dict] the script uses *)

Module str.

(** [s.startswith(p)] *)
Fixpoint startswith (p s : string) : bool :=
  match p, s with
  | "", _ => true
  | String a p', String b s' => if Ascii.eqb a b then startswith p' s' else false
  | String _ _, "" => false
  end.

(** [needle in hay]: [needle] occurs at some position of [hay]. *)
Fixpoint contains (needle hay : string) : bool :=
  startswith needle hay ||
  match hay with
  | "" => false
  | String _ hay' => contains needle hay'
  end.

(** [s.split(sep)] for a separator of one character. *)
Fixpoint split (sep : ascii) (s : string) : list string :=
  match s with
  | "" => [""]
  | String c s' =>
      if Ascii.eqb c sep then "" :: split sep s'
      else match split sep s' with
           | [] => [String c ""]
           | p :: ps => String c p :: ps
           end
  end.

(** [s.partition(sep)] for a separator of one character: the text before
    the first separator, the separator (or [""]), and the text after. *)
Fixpoint partition (sep : ascii) (s : string) : string * string * string :=
  match s with
  | "" => ("", "", "")
  | String c s' =>
      if Ascii.eqb c sep then ("", String sep "", s')
      else let '(a, m, b) := partition sep s' in (String c a, m, b)
  end.

(** [str(n)] for an [int]. *)
Definition of_int (n : Z) : string := NilZero.string_of_int (Z.to_int n).

(** How an f-string renders a value that is [None] or a [str]. *)
Definition format (v : option string) : string :=
  match v with
  | Some s => s
  | None => "None"
  end.

(** Truth value of a value that is [None] or a [str]. *)
Definition truthy (v : option string) : bool :=
  match v with
  | Some (String _ _) => true
  | _ => false
  end.

End str.

(** [l[i]] *)
Definition getitem (l : list string) (i : nat) : py string :=
  match l !! i with
  | Some x => Ok x
  | None => Raise (IndexError "list index out of range")
  end.

(** [d[k]] *)
Definition dict_getitem (d : gmap string (option string)) (k : string) : py (option string) :=
  match d !! k with
  | Some v => Ok v
  | None => Raise (KeyError k)
  end.

(** [d.get(k)] *)
Definition dict_get {V : Type} (d : gmap string (option V)) (k : string) : option V :=
  match d !! k with
  | Some v => v
  | None => None
  end.

(** ** The fragment of [re] the script uses *)

Module re.

Inductive class_item : Type :=
| CChar (c : ascii)
| CRange (lo hi : ascii)
| CDigit.

Inductive regex : Type :=
| Eps
| Bol
| Eol
| Lit (c : ascii)
| Class (items : list class_item)
| Seq (r1 r2 : regex)
| Alt (r1 r2 : regex)
| Star (r : regex)
| Group (name : string) (r : regex).

Arguments CChar c%_char.
Arguments CRange (lo hi)%_char.
Arguments Lit c%_char.

Definition Plus (r : regex) : regex := Seq r (Star r).
Definition Opt (r : regex) : regex := Alt r Eps.

(** The class of decimal digits, written \d in a pattern. Python reads it
    on a [str] as every decimal digit of Unicode; among the code points
    0..255, which are the characters of this embedding, these are the ten
    ASCII digits. A text with a digit of another script has a code point
    above 255 and is no [string] here. *)
Definition is_digit (c : ascii) : bool :=
  (N_of_ascii "0" <=? N_of_ascii c)%N && (N_of_ascii c <=? N_of_ascii "9")%N.

Definition in_item (c : ascii) (i : class_item) : bool :=
  match i with
  | CChar d => Ascii.eqb c d
  | CRange lo hi => (N_of_ascii lo <=? N_of_ascii c)%N && (N_of_ascii c <=? N_of_ascii hi)%N
  | CDigit => is_digit c
  end.

Definition newline : ascii := "010"%char.

(** The state of a match attempt: the text matched so far by the current
    node, the groups captured so far, and the text still to be read. *)
Definition result : Type := string * gmap string string * string.

(** Greedy repetition: first one more iteration of the body and then the
    rest of the repetition, and only then no further iteration. An
    iteration that reads nothing is not continued; at most [n] iterations
    are made ([run] passes the length of the remaining text). *)
Fixpoint star_iter (body : string -> string -> gmap string string -> list result)
    (n : nat) (pre s : string) (g : gmap string string) : list result :=
  match n with
  | O => [("", g, s)]
  | S n' =>
      ('(t1, g1, s1) ← body pre s g;
       match t1 with
       | "" => []
       | _ => '(t2, g2, s2) ← star_iter body n' (pre +:+ t1) s1 g1;
              [(t1 +:+ t2, g2, s2)]
       end) ++ [("", g, s)]
  end.

(** All the ways [r] matches at the current position, in the order a
    backtracking matcher tries them. [pre] is the text before the current
    position and [s] the text from it on. *)
Fixpoint run (r : regex) (pre s : string) (g : gmap string string) {struct r} : list result :=
  match r with
  | Eps => [("", g, s)]
  | Bol => match pre with "" => [("", g, s)] | _ => [] end
  | Eol =>
      match s with
      | "" => [("", g, s)]
      | String c "" => if Ascii.eqb c newline then [("", g, s)] else []
      | _ => []
      end
  | Lit c =>
      match s with
      | String d s' => if Ascii.eqb d c then [(String d "", g, s')] else []
      | "" => []
      end
  | Class items =>
      match s with
      | String d s' => if existsb (in_item d) items then [(String d "", g, s')] else []
      | "" => []
      end
  | Seq r1 r2 =>
      '(t1, g1, s1) ← run r1 pre s g;
      '(t2, g2, s2) ← run r2 (pre +:+ t1) s1 g1;
      [(t1 +:+ t2, g2, s2)]
  | Alt r1 r2 => run r1 pre s g ++ run r2 pre s g
  | Star r' => star_iter (run r') (String.length s) pre s g
  | Group name r' =>
      '(t, g', s') ← run r' pre s g;
      [(t, <[name := t]> g', s')]
  end.

(** The names of the groups of a pattern, in the order they occur. *)
Fixpoint group_names (r : regex) : list string :=
  match r with
  | Seq r1 r2 | Alt r1 r2 => group_names r1 ++ group_names r2
  | Star r' => group_names r'
  | Group name r' => name :: group_names r'
  | _ => []
  end.

Record match_object : Type := MatchObject {
  pattern : regex;
  groups : gmap string string
}.

(** [re.match(pattern, string)]: the first match at the start of [string],
    or [None]. *)
Definition match_ (r : regex) (s : string) : option match_object :=
  match run r "" s ∅ with
  | (_, g, _) :: _ => Some (MatchObject r g)
  | [] => None
  end.

(** [m.groupdict()]: every named group of the pattern, with [None] for a
    group that took no part in the match. *)
Definition groupdict (m : match_object) : gmap string (option string) :=
  list_to_map ((fun name => (name, groups m !! name)) <$> group_names (pattern m)).

End re.

(** ** The script *)

Import re.

(** The pattern 0|[1-9]\d* of the numeric components. *)
Definition numeric : regex :=
  Alt (Lit "0") (Seq (Class [CRange "1" "9"]) (Star (Class [CDigit]))).

(** The class [0-9a-zA-Z-]. *)
Definition ident_char : regex :=
  Class [CRange "0" "9"; CRange "a" "z"; CRange "A" "Z"; CChar "-"].

(** The pattern 0|[1-9]\d*|\d*[a-zA-Z-][0-9a-zA-Z-]* of a prerelease
    identifier. *)
Definition prerelease_ident : regex :=
  Alt (Lit "0")
    (Alt (Seq (Class [CRange "1" "9"]) (Star (Class [CDigit])))
       (Seq (Star (Class [CDigit]))
          (Seq (Class [CRange "a" "z"; CRange "A" "Z"; CChar "-"]) (Star ident_char)))).

(** The pattern of line 45, node by node. Its text, written here with a
    blank between a star and a closing parenthesis:
      ^v(?P<major>0|[1-9]\d* )\.(?P<minor>0|[1-9]\d* )\.(?P<patch>0|[1-9]\d* )
      (?:-(?P<prerelease>(?:0|[1-9]\d*|\d*[a-zA-Z-][0-9a-zA-Z-]* )
                         (?:\.(?:0|[1-9]\d*|\d*[a-zA-Z-][0-9a-zA-Z-]* ))* ))?
      (?:\+(?P<buildmetadata>[0-9a-zA-Z-]+(?:\.[0-9a-zA-Z-]+)* ))?$ *)
Definition semver_pattern : regex :=
  Seq Bol
 (Seq (Lit "v")
 (Seq (Group "major" numeric)
 (Seq (Lit ".")
 (Seq (Group "minor" numeric)
 (Seq (Lit ".")
 (Seq (Group "patch" numeric)
 (Seq (Opt (Seq (Lit "-")
                (Group "prerelease"
                   (Seq prerelease_ident
                        (Star (Seq (Lit ".") prerelease_ident))))))
 (Seq (Opt (Seq (Lit "+")
                (Group "buildmetadata"
                   (Seq (Plus ident_char)
                        (Star (Seq (Lit ".") (Plus ident_char)))))))
      Eol)))))))).

Definition unstable_msg : string :=
  "Cannot create PEP440-compliant version identifier if there are uncommited or unstaged changes.".

Definition none_groupdict_msg : string :=
  "'NoneType' object has no attribute 'groupdict'".

(** The local function [raise_error] of [_get_prerelease_and_dev_segment]. *)
Definition raise_error {A : Type} (prerelease : string) : py A :=
  Raise (ValueError ("Do not know how to handle prerelease " +:+ prerelease +:+ ".")).

Definition prerelease_cycle_to_short_name : gmap string string :=
  <["alpha" := "a"]> (<["beta" := "b"]> (<["rc" := "rc"]> ∅)).

Definition _get_prerelease_and_dev_segment
    (result_dict : gmap string (option string)) : py (string * string) :=
  let prerelease_opt := dict_get result_dict "prerelease" in
  let prerelease_segment := "" in
  let dev_segment := "" in
  if str.truthy prerelease_opt then
    let prerelease := str.format prerelease_opt in
    let prerelease_parts := str.split "." prerelease in
    let dev_value : option string := None in
    _ ← (if bool_decide (length prerelease_parts ∉ ({[2; 3]} : gset nat))
         then raise_error prerelease else Ok tt);
    part0 ← getitem prerelease_parts 0;
    let prerelease_cycle_short_name_opt := prerelease_cycle_to_short_name !! part0 in
    '(prerelease_segment, dev_value) ←
      (if str.truthy prerelease_cycle_short_name_opt then
         let prerelease_cycle_short_name := str.format prerelease_cycle_short_name_opt in
         prerelease_value ← getitem prerelease_parts 1;
         let prerelease_segment := prerelease_cycle_short_name +:+ prerelease_value in
         if Nat.eqb (length prerelease_parts) 3 then
           part2 ← getitem prerelease_parts 2;
           Ok (prerelease_segment, Some part2)
         else Ok (prerelease_segment, dev_value)
       else if String.eqb part0 "dev" then
         if Nat.eqb (length prerelease_parts) 2 then
           part1 ← getitem prerelease_parts 1;
           Ok (prerelease_segment, Some part1)
         else raise_error prerelease
       else raise_error prerelease);
    let dev_segment :=
      match dev_value with
      | Some v => ".dev" +:+ v
      | None => dev_segment
      end in
    Ok (prerelease_segment, dev_segment)
  else Ok (prerelease_segment, dev_segment).

Definition _get_local_version_label (result_dict : gmap string (option string)) : string :=
  let buildmetadata_opt := dict_get result_dict "buildmetadata" in
  let local_version_label := "" in
  if str.truthy buildmetadata_opt then
    let buildmetadata := str.format buildmetadata_opt in
    let commit_hash := (str.partition "." buildmetadata).1.1 in
    "+" +:+ commit_hash
  else local_version_label.

Definition create_pep440_version (semtag_version : string) : py string :=
  if str.contains "unstaged" semtag_version || str.contains "uncommitted" semtag_version
  then Raise (ValueError unstable_msg)
  else
    let result := re.match_ semver_pattern semtag_version in
    result_dict ← match result with
                  | Some m => Ok (re.groupdict m)
                  | None => Raise (AttributeError none_groupdict_msg)
                  end;
    major ← dict_getitem result_dict "major";
    minor ← dict_getitem result_dict "minor";
    patch ← dict_getitem result_dict "patch";
    let epoch_segment := str.format major +:+ "." in
    let release_segment := str.format minor +:+ "." +:+ str.format patch in
    '(prerelease_segment, dev_segment) ← _get_prerelease_and_dev_segment result_dict;
    let local_version_label := _get_local_version_label result_dict in
    Ok (epoch_segment +:+ release_segment +:+ prerelease_segment +:+ dev_segment
        +:+ local_version_label).

(** The table of [_test_create_pep440_version], in the order of the source. *)
Definition semtag_version_to_pep440_version : list (string * string) :=
  [ ("v0.14.0-alpha.1.2+f0e563586.feature-MLB-2000-developer-create-python-compatibl",
     "0.14.0a1.dev2+f0e563586");
    ("v0.14.0-alpha.1.2", "0.14.0a1.dev2");
    ("v0.14.0-alpha.1", "0.14.0a1");
    ("v0.14.0-beta.1", "0.14.0b1");
    ("v0.14.0-rc.1", "0.14.0rc1");
    ("v0.13.1-dev.1", "0.13.1.dev1");
    ("v0.14.0", "0.14.0");
    ("v0.15.0", "0.15.0");
    ("v1.15.0", "1.15.0") ].

(** A run of the program: the lines written to standard output and how
    the run ended. *)
Definition run_result : Type := list string * py unit.

Fixpoint _test_loop (items : list (string * string)) : py unit :=
  match items with
  | [] => Ok tt
  | (semtag_version, pep440_version_ref) :: items' =>
      pep440_version ← create_pep440_version semtag_version;
      if String.eqb pep440_version pep440_version_ref then _test_loop items'
      else Raise (AssertionError
                    ("Failure for " +:+ semtag_version +:+ ". Got " +:+ pep440_version
                     +:+ ". Expected " +:+ pep440_version_ref +:+ "."))
  end.

Definition _test_create_pep440_version : run_result :=
  match _test_loop semtag_version_to_pep440_version with
  | Ok _ => (["Test passed."], Ok tt)
  | Raise e => ([], Raise e)
  end.

(** The block under [if __name__ == "__main__"], on [sys.argv]. *)
Definition main (argv : list string) : run_result :=
  let n_argv := Z.of_nat (length argv) in
  if negb (n_argv =? 2)%Z then
    ([], Raise (SystemExit ("Error: Expected 1 argument, got "
                            +:+ str.of_int (n_argv - 1) +:+ ".")))
  else
    match getitem argv 1 with
    | Raise e => ([], Raise e)
    | Ok arg =>
        if String.eqb arg "test" then _test_create_pep440_version
        else match create_pep440_version arg with
             | Ok pep440_version => ([pep440_version], Ok tt)
             | Raise e => ([], Raise e)
             end
    end.

(** The exit status of the interpreter: 0 after a normal end, 1 after
    [sys.exit] with a message or an exception nobody caught. *)
Definition exit_status (r : run_result) : Z :=
  match r.2 with
  | Ok _ => 0
  | Raise _ => 1
  end.

(** What [sys.exit(msg)] writes to standard error. *)
Definition diagnostic (r : run_result) : option string :=
  match r.2 with
  | Raise (SystemExit msg) => Some msg
  | _ => None
  end.

(** ** Static analyses of a pattern, used to reason about its matches *)

(** Whether a node can match without reading a character. *)
Fixpoint nullable (r : regex) : bool :=
  match r with
  | Eps | Bol | Eol | Star _ => true
  | Lit _ | Class _ => false
  | Seq r1 r2 => nullable r1 && nullable r2
  | Alt r1 r2 => nullable r1 || nullable r2
  | Group _ r' => nullable r'
  end.

(** Whether every group of a pattern wraps a node that has to read a
    character. *)
Fixpoint groups_read (r : regex) : bool :=
  match r with
  | Seq r1 r2 | Alt r1 r2 => groups_read r1 && groups_read r2
  | Star r' => groups_read r'
  | Group _ r' => negb (nullable r') && groups_read r'
  | _ => true
  end.

(** Whether every match of a node goes through group [name]. *)
Fixpoint captures (name : string) (r : regex) : bool :=
  match r with
  | Seq r1 r2 => captures name r1 || captures name r2
  | Alt r1 r2 => captures name r1 && captures name r2
  | Group n r' => String.eqb n name || captures name r'
  | _ => false
  end.

(** Whether the body of every repetition has to read a character. *)
Fixpoint stars_read (r : regex) : bool :=
  match r with
  | Seq r1 r2 | Alt r1 r2 => stars_read r1 && stars_read r2
  | Star r' => negb (nullable r') && stars_read r'
  | Group _ r' => stars_read r'
  | _ => true
  end.

(** The captured texts are all non-empty. *)
Definition nonempty_groups (g : gmap string string) : Prop :=
  forall name v, g !! name = Some v -> v <> "".

(** ** Definitions used to state further properties *)

(** Whether every character of a text passes a test. *)
Fixpoint string_forallb (f : ascii -> bool) (s : string) : bool :=
  match s with
  | "" => true
  | String c s' => f c && string_forallb f s'
  end.

(** Whether every character of a class passes a test. *)
Definition class_within (f : ascii -> bool) (items : list class_item) : bool :=
  forallb (fun n => let c := ascii_of_nat n in implb (existsb (in_item c) items) (f c))
          (seq 0 256).

(** Whether every character that a pattern can read passes a test. *)
Fixpoint reads_only (f : ascii -> bool) (r : regex) : bool :=
  match r with
  | Lit c => f c
  | Class items => class_within f items
  | Seq r1 r2 | Alt r1 r2 => reads_only f r1 && reads_only f r2
  | Star r' | Group _ r' => reads_only f r'
  | _ => true
  end.

Definition not_newline (c : ascii) : bool := negb (Ascii.eqb c newline).

(** What a match on a text becomes when a newline is put behind the text. *)
Definition after_newline (x : result) : result :=
  (x.1.1, x.1.2, x.2 +:+ String newline "").

(** Whether every group of a pattern can read only the characters that
    pass the test given for its name. *)
Fixpoint groups_read_only (f : string -> ascii -> bool) (r : regex) : bool :=
  match r with
  | Seq r1 r2 | Alt r1 r2 => groups_read_only f r1 && groups_read_only f r2
  | Star r' => groups_read_only f r'
  | Group name r' => reads_only (f name) r' && groups_read_only f r'
  | _ => true
  end.

(** ASCII letters, digits and the hyphen. *)
Definition is_ident_char (c : ascii) : bool :=
  is_digit c
  || (N_of_ascii "a" <=? N_of_ascii c)%N && (N_of_ascii c <=? N_of_ascii "z")%N
  || (N_of_ascii "A" <=? N_of_ascii c)%N && (N_of_ascii c <=? N_of_ascii "Z")%N
  || Ascii.eqb c "-".

(** The characters of each group of the pattern of the script. *)
Definition group_alphabet (name : string) (c : ascii) : bool :=
  if bool_decide (name ∈ ["major"; "minor"; "patch"]) then is_digit c
  else is_ident_char c || Ascii.eqb c ".".

(** The characters of a converted version. *)
Definition pep440_char (c : ascii) : bool :=
  is_ident_char c || Ascii.eqb c "." || Ascii.eqb c "+".

(** Whether a text is empty or starts with a character that fails a test. *)
Definition starts_outside (f : ascii -> bool) (s : string) : bool :=
  match s with
  | "" => true
  | String c _ => negb (f c)
  end.

(** The characters of a class. *)
Definition in_class (items : list class_item) (c : ascii) : bool :=
  existsb (in_item c) items.

(** A numeric component: "0", or digits that do not start with "0". *)
Definition is_numeric (s : string) : bool :=
  match s with
  | "" => false
  | String c rest =>
      if Ascii.eqb c "0" then match rest with "" => true | _ => false end
      else is_digit c && string_forallb is_digit rest
  end.

(** A prerelease identifier that is numeric or starts with a letter or a
    hyphen. *)
Definition is_simple_ident (s : string) : bool :=
  is_numeric s ||
  match s with
  | "" => false
  | String c rest => is_ident_char c && negb (is_digit c) && string_forallb is_ident_char rest
  end.

(** An identifier of the build metadata. *)
Definition is_build_ident (s : string) : bool :=
  match s with
  | "" => false
  | _ => string_forallb is_ident_char s
  end.

(** The identifiers that follow the first one, each behind a dot. *)
Definition dotted (ids : list string) : string :=
  foldr (fun id acc => "." +:+ id +:+ acc) "" ids.

(** A list of identifiers behind a mark ("-" or "+"), the identifiers
    separated by dots; nothing for no identifier. *)
Definition marked (mark : string) (ids : list string) : string :=
  match ids with
  | [] => ""
  | id :: ids' => mark +:+ id +:+ dotted ids'
  end.

(** The semtag version with the given components. *)
Definition render (major minor patch : string) (prerelease build : list string) : string :=
  "v" +:+ major +:+ "." +:+ minor +:+ "." +:+ patch
  +:+ marked "-" prerelease +:+ marked "+" build.

(** The groups that a match of the semtag version gives. *)
Definition with_group (name : string) (ids : list string) (g : gmap string string)
    : gmap string string :=
  match ids with
  | [] => g
  | id :: ids' => <[name := id +:+ dotted ids']> g
  end.

Definition rendered_groups (major minor patch : string) (prerelease build : list string)
    : gmap string string :=
  with_group "buildmetadata" build
    (with_group "prerelease" prerelease
       (<["patch" := patch]> (<["minor" := minor]> (<["major" := major]> ∅)))).

(** The text of a group made of identifiers: [None] for no identifier. *)
Definition joined (ids : list string) : option string :=
  match ids with
  | [] => None
  | id :: ids' => Some (id +:+ dotted ids')
  end.

(** The text of an optional group behind its mark. *)
Definition with_mark (mark : string) (v : option string) : string :=
  match v with
  | Some text => mark +:+ text
  | None => ""
  end.

(** ** The output grammar of the specification *)

(** The [<N>] of the output grammar, and its [<major>], [<minor>] and
    [<patch>]: a non-empty text of digits. *)
Definition spec_number (s : string) : bool :=
  match s with
  | "" => false
  | _ => string_forallb is_digit s
  end.

(** The output grammar as the specification words it,
    [<major>.<minor>.<patch>[{a|b|rc}<N>][.dev<N>][+<local-label>]]:
    the release, then an optional prerelease segment, an optional
    development segment and an optional local label. Nothing is asked of
    the text of the local label. *)
Definition spec_output_form (out : string) : Prop :=
  exists major minor patch prerelease_segment dev_segment local_version_label,
    spec_number major = true /\ spec_number minor = true /\ spec_number patch = true /\
    (prerelease_segment = "" \/
     exists short n, short ∈ ["a"; "b"; "rc"] /\ spec_number n = true /\
                     prerelease_segment = short +:+ n) /\
    (dev_segment = "" \/
     exists n, spec_number n = true /\ dev_segment = ".dev" +:+ n) /\
    (local_version_label = "" \/ exists l, local_version_label = "+" +:+ l) /\
    out = major +:+ "." +:+ minor +:+ "." +:+ patch +:+ prerelease_segment
          +:+ dev_segment +:+ local_version_label.

(** * Properties *)

(** ** Strings *)

Section StringFacts.

Lemma append_nil_l (s : string) : "" +:+ s = s.
Proof. reflexivity. Qed.

Lemma append_cons (c : ascii) (a b : string) : String c a +:+ b = String c (a +:+ b).
Proof. reflexivity. Qed.

Lemma append_nil_r (s : string) : s +:+ "" = s.
Proof. induction s as [|c s IH]; [done|]. by rewrite append_cons, IH. Qed.

Lemma append_assoc (a b c : string) : (a +:+ b) +:+ c = a +:+ (b +:+ c).
Proof. induction a as [|x a IH]; [done|]. by rewrite !append_cons, IH. Qed.

Lemma append_eq_nil (a b : string) : a +:+ b = "" -> a = "" /\ b = "".
Proof. destruct a; [done|]. rewrite append_cons. discriminate. Qed.

Lemma length_append (a b : string) :
  String.length (a +:+ b) = String.length a + String.length b.
Proof. induction a as [|x a IH]; [done|]. rewrite append_cons. cbn. by rewrite IH. Qed.

Lemma startswith_spec (p s : string) :
  str.startswith p s = true <-> exists b, s = p +:+ b.
Proof.
  revert s. induction p as [|a p IH]; intros s; cbn.
  - split; [|done]. intros _. by exists s.
  - destruct s as [|b s].
    + split; [done|]. by intros [t Ht].
    + destruct (Ascii.eqb_spec a b) as [->|Hne].
      * rewrite IH. split; intros [t Ht]; exists t.
        -- by rewrite Ht.
        -- rewrite append_cons in Ht. by injection Ht.
      * split; [done|]. intros [t Ht]. rewrite append_cons in Ht.
        injection Ht as Hab _. by destruct Hne.
Qed.

Lemma startswith_contains (needle hay : string) :
  str.startswith needle hay = true -> str.contains needle hay = true.
Proof. intros H. destruct hay; cbn; by rewrite H. Qed.

(** [needle in hay] holds exactly when [hay] is some text, then [needle],
    then some text. *)
Lemma contains_spec (needle hay : string) :
  str.contains needle hay = true <-> exists a b, hay = a +:+ needle +:+ b.
Proof.
  split.
  - induction hay as [|c hay IH]; cbn; rewrite orb_true_iff.
    + intros [H|H]; [|done]. apply startswith_spec in H as [b Hb]. by exists "", b.
    + intros [H|H].
      * apply startswith_spec in H as [b Hb]. by exists "", b.
      * destruct (IH H) as (a & b & ->). by exists (String c a), b.
  - intros (a & b & ->). induction a as [|c a IH].
    + rewrite append_nil_l. apply startswith_contains, startswith_spec. by exists b.
    + rewrite append_cons. cbn. rewrite IH. apply orb_true_r.
Qed.

Lemma split_not_nil (sep : ascii) (s : string) : str.split sep s <> [].
Proof.
  induction s as [|c s IH]; cbn; [done|].
  destruct (Ascii.eqb c sep); [done|]. by destruct (str.split sep s).
Qed.

(** The text in front of the first separator is the first element of the
    split. *)
Lemma partition_split (sep : ascii) (s : string) :
  exists rest, str.split sep s = (str.partition sep s).1.1 :: rest.
Proof.
  induction s as [|c s [rest IH]]; cbn; [by exists []|].
  destruct (Ascii.eqb c sep); [by eexists|].
  rewrite IH. destruct (str.partition sep s) as [[a m] b]. by eexists.
Qed.

(** No element of a split contains the separator. *)
Lemma split_no_sep (sep : ascii) (s p : string) :
  p ∈ str.split sep s -> str.contains (String sep "") p = false.
Proof.
  revert p. induction s as [|c s IH]; intros p; cbn.
  - intros ->%list_elem_of_singleton. done.
  - destruct (Ascii.eqb_spec c sep) as [->|Hne].
    + intros [->|H]%elem_of_cons; [done|]. by apply IH.
    + destruct (str.split sep s) as [|q qs] eqn:E; [by destruct (split_not_nil sep s)|].
      intros [->|H]%elem_of_cons.
      * cbn. apply Ascii.eqb_neq in Hne. rewrite Ascii.eqb_sym in Hne. rewrite Hne. cbn.
        apply IH. by left.
      * apply IH. by right.
Qed.

Lemma split_no_sep_id (sep : ascii) (s : string) :
  str.contains (String sep "") s = false -> str.split sep s = [s].
Proof.
  induction s as [|c s IH]; cbn; [done|].
  rewrite Ascii.eqb_sym. destruct (Ascii.eqb c sep); cbn; [done|].
  intros H. by rewrite IH.
Qed.

Lemma split_append_sep (sep : ascii) (a b : string) :
  str.contains (String sep "") a = false ->
  str.split sep (a +:+ String sep b) = a :: str.split sep b.
Proof.
  induction a as [|c a IH].
  - intros _. rewrite append_nil_l. cbn. by rewrite Ascii.eqb_refl.
  - cbn. intros H. rewrite append_cons. cbn.
    destruct (Ascii.eqb_spec c sep) as [->|Hne].
    + by rewrite Ascii.eqb_refl in H.
    + apply Ascii.eqb_neq in Hne. rewrite Ascii.eqb_sym in Hne.
      rewrite Hne in H. cbn in H. by rewrite IH.
Qed.

End StringFacts.

(** ** The matcher *)

Section MatcherFacts.

Implicit Types (r : regex) (g : gmap string string) (pre s t : string).

Ltac bind_in H :=
  let t := fresh "t" in let g := fresh "g" in let s := fresh "s" in
  let Hin := fresh "Hin" in
  apply list_elem_of_bind in H as ([[t g] s] & H & Hin).

Ltac single_in H :=
  apply list_elem_of_singleton in H; injection H as -> -> ->.

(** What a node matched is what was read: the text at the current
    position is the matched text followed by the remaining text. *)
Lemma star_iter_append body :
  (forall pre s g t g' s', (t, g', s') ∈ body pre s g -> s = t +:+ s') ->
  forall n pre s g t g' s',
    (t, g', s') ∈ star_iter body n pre s g -> s = t +:+ s'.
Proof.
  intros Hb. induction n as [|n IH]; intros pre s g t g' s'; cbn.
  - intros H. by single_in H.
  - rewrite elem_of_app. intros [H|H]; [|by single_in H].
    bind_in H. apply Hb in Hin as ->.
    destruct t0 as [|c t0]; [by apply elem_of_nil in H|].
    bind_in H. apply IH in Hin as ->. single_in H. by rewrite append_assoc.
Qed.

Lemma run_append r : forall pre s g t g' s',
  (t, g', s') ∈ run r pre s g -> s = t +:+ s'.
Proof.
  induction r as [| | |c|items|r1 IH1 r2 IH2|r1 IH1 r2 IH2|r IH|name r IH];
    intros pre s g t g' s'; cbn.
  - intros H. by single_in H.
  - destruct pre; [|by intros ?%elem_of_nil]. intros H. by single_in H.
  - destruct s as [|c [|d s]]; try (by intros ?%elem_of_nil).
    + intros H. by single_in H.
    + destruct (Ascii.eqb c newline); [|by intros ?%elem_of_nil]. intros H. by single_in H.
  - destruct s as [|d s]; [by intros ?%elem_of_nil|].
    destruct (Ascii.eqb d c); [|by intros ?%elem_of_nil]. intros H. by single_in H.
  - destruct s as [|d s]; [by intros ?%elem_of_nil|].
    destruct (existsb _ _); [|by intros ?%elem_of_nil]. intros H. by single_in H.
  - intros H. bind_in H. apply IH1 in Hin as ->.
    bind_in H. apply IH2 in Hin as ->. single_in H. by rewrite append_assoc.
  - rewrite elem_of_app. intros [H|H]; eauto.
  - apply star_iter_append. eauto.
  - intros H. bind_in H. single_in H. eauto.
Qed.

Lemma bind_ext_in {A B : Type} (f h : A -> list B) (l : list A) :
  (forall x, x ∈ l -> f x = h x) -> l ≫= f = l ≫= h.
Proof.
  induction l as [|x l IH]; intros H; [done|]. cbn.
  rewrite (H x) by left. rewrite IH; [done|]. intros y Hy. apply H. by right.
Qed.

Lemma bind_nil_in {A B : Type} (f : A -> list B) (l : list A) :
  (forall x, x ∈ l -> f x = []) -> l ≫= f = [].
Proof.
  induction l as [|x l IH]; intros H; [done|]. cbn.
  rewrite (H x) by left. rewrite IH; [done|]. intros y Hy. apply H. by right.
Qed.

(** The bound on the number of iterations of a repetition never cuts a
    match short: any bound of at least the length of the remaining text
    gives the same matches. *)
Lemma star_iter_bound body :
  (forall pre s g t g' s', (t, g', s') ∈ body pre s g -> s = t +:+ s') ->
  forall n m pre s g,
    String.length s <= n -> String.length s <= m ->
    star_iter body n pre s g = star_iter body m pre s g.
Proof.
  intros Hb.
  assert (forall k pre g, star_iter body k pre "" g = [("", g, "")]) as Hnil.
  { intros [|k] pre g; [done|]. cbn. rewrite bind_nil_in; [done|].
    intros [[t1 g1] s1] Hin. apply Hb in Hin. symmetry in Hin.
    apply append_eq_nil in Hin as [-> _]. done. }
  induction n as [|n IH]; intros m pre s g Hn Hm.
  - destruct s; [|cbn in Hn; lia]. by rewrite !Hnil.
  - destruct m as [|m].
    + destruct s; [|cbn in Hm; lia]. by rewrite !Hnil.
    + cbn. f_equal. apply bind_ext_in. intros [[t1 g1] s1] Hin.
      destruct t1 as [|c t1]; [done|]. apply Hb in Hin. subst s.
      rewrite append_cons in Hn, Hm. cbn in Hn, Hm. rewrite length_append in Hn, Hm.
      rewrite (IH m); [done|lia|lia].
Qed.

Lemma run_star_bound r n pre s g :
  String.length s <= n ->
  run (Star r) pre s g = star_iter (run r) n pre s g.
Proof.
  intros Hn. cbn. apply star_iter_bound; [apply run_append|lia|lia].
Qed.

(** A node that is not nullable matches a non-empty text. *)
Lemma run_nullable r : forall pre s g t g' s',
  nullable r = false -> (t, g', s') ∈ run r pre s g -> t <> "".
Proof.
  induction r as [| | |c|items|r1 IH1 r2 IH2|r1 IH1 r2 IH2|r IH|name r IH];
    intros pre s g t g' s'; cbn; try done.
  - intros _. destruct s as [|d s]; [by intros ?%elem_of_nil|].
    destruct (Ascii.eqb d c); [|by intros ?%elem_of_nil]. intros H. by single_in H.
  - intros _. destruct s as [|d s]; [by intros ?%elem_of_nil|].
    destruct (existsb _ _); [|by intros ?%elem_of_nil]. intros H. by single_in H.
  - intros Hn H. bind_in H. bind_in H. single_in H.
    intros [-> ->]%append_eq_nil. apply andb_false_iff in Hn as [Hn|Hn].
    + by eapply IH1.
    + by eapply IH2.
  - intros [Hn1 Hn2]%orb_false_iff. rewrite elem_of_app. intros [H|H]; eauto.
  - intros Hn H. bind_in H. single_in H. eauto.
Qed.

(** With a body that is not nullable, a repetition never drops an
    iteration for having read nothing. *)
Lemma star_iter_reads r n pre s g :
  nullable r = false ->
  star_iter (run r) (S n) pre s g =
    (('(t1, g1, s1) ← run r pre s g;
      '(t2, g2, s2) ← star_iter (run r) n (pre +:+ t1) s1 g1;
      [(t1 +:+ t2, g2, s2)]) ++ [("", g, s)])%list.
Proof.
  intros Hn. cbn. f_equal. apply bind_ext_in. intros [[t1 g1] s1] Hin.
  destruct t1; [|done]. by apply run_nullable in Hin.
Qed.

(** A property of the captured groups that the body of a repetition
    keeps is kept by the repetition. *)
Lemma star_iter_inv (P : gmap string string -> Prop) body :
  (forall pre s g t g' s', P g -> (t, g', s') ∈ body pre s g -> P g') ->
  forall n pre s g t g' s',
    P g -> (t, g', s') ∈ star_iter body n pre s g -> P g'.
Proof.
  intros Hb. induction n as [|n IH]; intros pre s g t g' s' Hg; cbn.
  - intros H. by single_in H.
  - rewrite elem_of_app. intros [H|H]; [|by single_in H].
    bind_in H. destruct t0 as [|c t0]; [by apply elem_of_nil in H|].
    bind_in H. single_in H. eauto.
Qed.

(** When every group of the pattern has to read a character, no captured
    text is empty. *)
Lemma run_nonempty_groups r : forall pre s g t g' s',
  groups_read r = true -> nonempty_groups g ->
  (t, g', s') ∈ run r pre s g -> nonempty_groups g'.
Proof.
  induction r as [| | |c|items|r1 IH1 r2 IH2|r1 IH1 r2 IH2|r IH|name r IH];
    intros pre s g t g' s'; cbn.
  - intros _ Hg H. by single_in H.
  - intros _ Hg. destruct pre; [|by intros ?%elem_of_nil]. intros H. by single_in H.
  - intros _ Hg. destruct s as [|c [|d s]]; try (by intros ?%elem_of_nil).
    + intros H. by single_in H.
    + destruct (Ascii.eqb c newline); [|by intros ?%elem_of_nil]. intros H. by single_in H.
  - intros _ Hg. destruct s as [|d s]; [by intros ?%elem_of_nil|].
    destruct (Ascii.eqb d c); [|by intros ?%elem_of_nil]. intros H. by single_in H.
  - intros _ Hg. destruct s as [|d s]; [by intros ?%elem_of_nil|].
    destruct (existsb _ _); [|by intros ?%elem_of_nil]. intros H. by single_in H.
  - intros [H1 H2]%andb_true_iff Hg H. bind_in H. bind_in H. single_in H. eauto.
  - intros [H1 H2]%andb_true_iff Hg. rewrite elem_of_app. intros [H|H]; eauto.
  - intros Hr Hg. apply (star_iter_inv nonempty_groups); eauto.
  - intros [Hn Hr]%andb_true_iff Hg H. bind_in H. single_in H.
    apply negb_true_iff in Hn.
    intros n v. rewrite lookup_insert. case_decide as Hname.
    + intros [= <-]. by eapply run_nullable.
    + eapply IH; eauto.
Qed.

(** A group that is set stays set. *)
Lemma run_groups_mono name r : forall pre s g t g' s',
  is_Some (g !! name) -> (t, g', s') ∈ run r pre s g -> is_Some (g' !! name).
Proof.
  induction r as [| | |c|items|r1 IH1 r2 IH2|r1 IH1 r2 IH2|r IH|n r IH];
    intros pre s g t g' s' Hg; cbn.
  - intros H. by single_in H.
  - destruct pre; [|by intros ?%elem_of_nil]. intros H. by single_in H.
  - destruct s as [|c [|d s]]; try (by intros ?%elem_of_nil).
    + intros H. by single_in H.
    + destruct (Ascii.eqb c newline); [|by intros ?%elem_of_nil]. intros H. by single_in H.
  - destruct s as [|d s]; [by intros ?%elem_of_nil|].
    destruct (Ascii.eqb d c); [|by intros ?%elem_of_nil]. intros H. by single_in H.
  - destruct s as [|d s]; [by intros ?%elem_of_nil|].
    destruct (existsb _ _); [|by intros ?%elem_of_nil]. intros H. by single_in H.
  - intros H. bind_in H. bind_in H. single_in H. eauto.
  - rewrite elem_of_app. intros [H|H]; eauto.
  - apply (star_iter_inv (fun g => is_Some (g !! name))); eauto.
  - intros H. bind_in H. single_in H. rewrite lookup_insert. case_decide; eauto.
Qed.

(** A group that every match goes through is set by every match. *)
Lemma run_captures name r : forall pre s g t g' s',
  captures name r = true -> (t, g', s') ∈ run r pre s g -> is_Some (g' !! name).
Proof.
  induction r as [| | |c|items|r1 IH1 r2 IH2|r1 IH1 r2 IH2|r IH|n r IH];
    intros pre s g t g' s'; cbn; try done.
  - intros Hc H. bind_in H. bind_in H. single_in H.
    apply orb_true_iff in Hc as [Hc|Hc].
    + eapply run_groups_mono; [|done]. eauto.
    + eauto.
  - intros [H1 H2]%andb_true_iff. rewrite elem_of_app. intros [H|H]; eauto.
  - intros Hc H. bind_in H. single_in H. rewrite lookup_insert. case_decide; [eauto|].
    apply orb_true_iff in Hc as [Hc%String.eqb_eq|Hc]; [done|eauto].
Qed.

(** [re.match] returns the groups of one of the matches of the pattern. *)
Lemma match_run r s m :
  match_ r s = Some m ->
  pattern m = r /\ exists t s', (t, groups m, s') ∈ run r "" s ∅.
Proof.
  unfold match_. destruct (run r "" s ∅) as [|[[t g] s'] l] eqn:E; [done|].
  intros [= <-]. split; [done|]. exists t, s'. cbn. left.
Qed.

(** [groupdict] has an entry for every group of the pattern. *)
Lemma groupdict_lookup m name :
  name ∈ group_names (pattern m) ->
  groupdict m !! name = Some (groups m !! name).
Proof.
  unfold groupdict. induction (group_names (pattern m)) as [|n l IH]; cbn.
  - by intros ?%elem_of_nil.
  - intros H. rewrite lookup_insert. case_decide as Hn; [by subst|].
    apply elem_of_cons in H as [->|H]; [done|]. by apply IH.
Qed.

End MatcherFacts.

(** ** The pattern of the script *)

Section PatternFacts.

Lemma semver_group_names :
  group_names semver_pattern = ["major"; "minor"; "patch"; "prerelease"; "buildmetadata"].
Proof. reflexivity. Qed.

(** No repetition of the pattern has a body that can match the empty
    text, so the matcher never meets an iteration that reads nothing. *)
Lemma semver_stars_read : stars_read semver_pattern = true.
Proof. reflexivity. Qed.

Lemma semver_groups_read : groups_read semver_pattern = true.
Proof. reflexivity. Qed.

Lemma semver_groupdict_lookup s m name :
  re.match_ semver_pattern s = Some m ->
  name ∈ ["major"; "minor"; "patch"; "prerelease"; "buildmetadata"] ->
  groupdict m !! name = Some (groups m !! name).
Proof.
  intros [Hp _]%match_run Hin. apply groupdict_lookup. by rewrite Hp.
Qed.

(** A matched group is never the empty text. *)
Lemma semver_group_nonempty s m name v :
  re.match_ semver_pattern s = Some m ->
  groupdict m !! name = Some (Some v) -> v <> "".
Proof.
  intros Hm Hd. pose proof Hm as [Hp (t & s' & Hrun)]%match_run.
  apply run_nonempty_groups in Hrun; [|done|by intros ? ?; rewrite lookup_empty].
  apply (Hrun name).
  unfold groupdict in Hd. apply elem_of_list_to_map_2 in Hd.
  apply list_elem_of_fmap in Hd as (n & [= -> Hv] & _). done.
Qed.

(** The three numeric components take part in every match. *)
Lemma semver_release_present s m :
  re.match_ semver_pattern s = Some m ->
  exists major minor patch,
    groupdict m !! "major" = Some (Some major) /\
    groupdict m !! "minor" = Some (Some minor) /\
    groupdict m !! "patch" = Some (Some patch).
Proof.
  intros Hm. pose proof Hm as [Hp (t & s' & Hrun)]%match_run.
  assert (forall name, name ∈ ["major"; "minor"; "patch"] ->
            exists v, groupdict m !! name = Some (Some v)) as H.
  { intros name Hin.
    assert (is_Some (groups m !! name)) as [v Hv].
    { eapply run_captures; [|exact Hrun].
      apply elem_of_cons in Hin as [->|Hin]; [done|].
      apply elem_of_cons in Hin as [->|Hin]; [done|].
      apply list_elem_of_singleton in Hin as ->. done. }
    exists v. rewrite (semver_groupdict_lookup s), Hv; [done..|].
    rewrite !elem_of_cons in Hin. rewrite !elem_of_cons. tauto. }
  destruct (H "major") as [major ?]; [repeat constructor|].
  destruct (H "minor") as [minor ?]; [repeat constructor|].
  destruct (H "patch") as [patch ?]; [repeat constructor|].
  by exists major, minor, patch.
Qed.

End PatternFacts.

(** ** The functions of the script *)

Section ScriptFacts.

Implicit Types (d : gmap string (option string)) (s p : string).

Lemma truthy_nonempty p : p <> "" -> str.truthy (Some p) = true.
Proof. by destruct p. Qed.

Lemma part_count_check (n : nat) :
  bool_decide (n ∉ ({[2; 3]} : gset nat)) = negb (Nat.eqb n 2 || Nat.eqb n 3).
Proof.
  destruct (Nat.eqb_spec n 2) as [->|H2]; [done|].
  destruct (Nat.eqb_spec n 3) as [->|H3]; [done|].
  apply bool_decide_eq_true. rewrite elem_of_union, !elem_of_singleton. tauto.
Qed.

Lemma short_name_cases (c sh : string) :
  prerelease_cycle_to_short_name !! c = Some sh ->
  (c = "alpha" /\ sh = "a") \/ (c = "beta" /\ sh = "b") \/ (c = "rc" /\ sh = "rc").
Proof.
  unfold prerelease_cycle_to_short_name.
  rewrite !lookup_insert_Some, lookup_empty.
  intros [[<- <-]|[_ [[<- <-]|[_ [[<- <-]|[_ ?]]]]]]; tauto || done.
Qed.

Lemma short_name_none (c : string) :
  c ∉ ["alpha"; "beta"; "rc"] -> prerelease_cycle_to_short_name !! c = None.
Proof.
  intros Hc. destruct (prerelease_cycle_to_short_name !! c) as [sh|] eqn:E; [|done].
  destruct Hc. apply short_name_cases in E as [[-> _]|[[-> _]|[-> _]]]; repeat constructor.
Qed.

Lemma short_name_truthy (c sh : string) :
  prerelease_cycle_to_short_name !! c = Some sh ->
  str.truthy (prerelease_cycle_to_short_name !! c) = true /\
  str.format (prerelease_cycle_to_short_name !! c) = sh.
Proof.
  intros H. rewrite H. by apply short_name_cases in H as [[_ ->]|[[_ ->]|[_ ->]]].
Qed.

(** The first lines of [_get_prerelease_and_dev_segment], up to the test
    on the number of parts. *)
Lemma segments_unfold d p :
  d !! "prerelease" = Some (Some p) -> p <> "" ->
  _get_prerelease_and_dev_segment d =
    let prerelease_parts := str.split "." p in
    _ ← (if negb (Nat.eqb (length prerelease_parts) 2 || Nat.eqb (length prerelease_parts) 3)
         then raise_error p else Ok tt);
    part0 ← getitem prerelease_parts 0;
    '(prerelease_segment, dev_value) ←
      (if str.truthy (prerelease_cycle_to_short_name !! part0) then
         prerelease_value ← getitem prerelease_parts 1;
         let prerelease_segment :=
           str.format (prerelease_cycle_to_short_name !! part0) +:+ prerelease_value in
         if Nat.eqb (length prerelease_parts) 3 then
           part2 ← getitem prerelease_parts 2;
           Ok (prerelease_segment, Some part2)
         else Ok (prerelease_segment, None)
       else if String.eqb part0 "dev" then
         if Nat.eqb (length prerelease_parts) 2 then
           part1 ← getitem prerelease_parts 1;
           Ok ("", Some part1)
         else raise_error p
       else raise_error p);
    Ok (prerelease_segment,
        match dev_value with Some v => ".dev" +:+ v | None => "" end).
Proof.
  intros Hd Hp. unfold _get_prerelease_and_dev_segment, dict_get.
  rewrite Hd, (truthy_nonempty p Hp). cbn [str.format].
  by rewrite part_count_check.
Qed.

(** Without a prerelease there is neither segment. *)
Lemma segments_absent d :
  d !! "prerelease" = Some None -> _get_prerelease_and_dev_segment d = Ok ("", "").
Proof.
  intros Hd. unfold _get_prerelease_and_dev_segment, dict_get. by rewrite Hd.
Qed.

Lemma segments_cycle_two d p cycle short part1 :
  d !! "prerelease" = Some (Some p) ->
  str.split "." p = [cycle; part1] ->
  prerelease_cycle_to_short_name !! cycle = Some short ->
  _get_prerelease_and_dev_segment d = Ok (short +:+ part1, "").
Proof.
  intros Hd Hs Hc. rewrite (segments_unfold d p Hd) by (by intros ->).
  rewrite Hs. cbn. by destruct (short_name_truthy _ _ Hc) as [-> ->].
Qed.

Lemma segments_cycle_three d p cycle short part1 part2 :
  d !! "prerelease" = Some (Some p) ->
  str.split "." p = [cycle; part1; part2] ->
  prerelease_cycle_to_short_name !! cycle = Some short ->
  _get_prerelease_and_dev_segment d = Ok (short +:+ part1, ".dev" +:+ part2).
Proof.
  intros Hd Hs Hc. rewrite (segments_unfold d p Hd) by (by intros ->).
  rewrite Hs. cbn. by destruct (short_name_truthy _ _ Hc) as [-> ->].
Qed.

Lemma segments_dev_two d p part1 :
  d !! "prerelease" = Some (Some p) ->
  str.split "." p = ["dev"; part1] ->
  _get_prerelease_and_dev_segment d = Ok ("", ".dev" +:+ part1).
Proof.
  intros Hd Hs. rewrite (segments_unfold d p Hd) by (by intros ->).
  rewrite Hs. cbn. rewrite short_name_none; [done|].
  rewrite !elem_of_cons, elem_of_nil. intuition discriminate.
Qed.

Lemma segments_dev_three d p part1 part2 :
  d !! "prerelease" = Some (Some p) ->
  str.split "." p = ["dev"; part1; part2] ->
  _get_prerelease_and_dev_segment d = raise_error p.
Proof.
  intros Hd Hs. rewrite (segments_unfold d p Hd) by (by intros ->).
  rewrite Hs. cbn. rewrite short_name_none; [done|].
  rewrite !elem_of_cons, elem_of_nil. intuition discriminate.
Qed.

Lemma segments_part_count d p :
  d !! "prerelease" = Some (Some p) -> p <> "" ->
  length (str.split "." p) <> 2 -> length (str.split "." p) <> 3 ->
  _get_prerelease_and_dev_segment d = raise_error p.
Proof.
  intros Hd Hp H2 H3. rewrite (segments_unfold d p Hd Hp). cbn zeta.
  apply Nat.eqb_neq in H2, H3. by rewrite H2, H3.
Qed.

Lemma segments_unknown_cycle d p cycle rest :
  d !! "prerelease" = Some (Some p) -> p <> "" ->
  str.split "." p = cycle :: rest ->
  cycle ∉ ["alpha"; "beta"; "rc"; "dev"] ->
  _get_prerelease_and_dev_segment d = raise_error p.
Proof.
  intros Hd Hp Hs Hc. rewrite (segments_unfold d p Hd Hp). rewrite Hs. cbn zeta.
  destruct (negb _); [done|]. cbn.
  rewrite short_name_none.
  - cbn. destruct (String.eqb_spec cycle "dev") as [->|Hne]; [|done].
    destruct Hc. repeat constructor.
  - intros H. apply Hc. rewrite !elem_of_cons in *. tauto.
Qed.

(** After the guard and the match, the result is put together from the
    three numeric components, the two segments and the label. *)
Lemma create_matched s m major minor patch :
  str.contains "unstaged" s || str.contains "uncommitted" s = false ->
  re.match_ semver_pattern s = Some m ->
  groupdict m !! "major" = Some (Some major) ->
  groupdict m !! "minor" = Some (Some minor) ->
  groupdict m !! "patch" = Some (Some patch) ->
  create_pep440_version s =
    match _get_prerelease_and_dev_segment (groupdict m) with
    | Ok (prerelease_segment, dev_segment) =>
        Ok (major +:+ "." +:+ minor +:+ "." +:+ patch +:+ prerelease_segment
            +:+ dev_segment +:+ _get_local_version_label (groupdict m))
    | Raise e => Raise e
    end.
Proof.
  intros Hu Hm Hmaj Hmin Hpat. unfold create_pep440_version, dict_getitem.
  rewrite Hu, Hm. cbn. rewrite Hmaj, Hmin, Hpat. cbn.
  destruct (_get_prerelease_and_dev_segment _) as [[a b]|e]; [|done].
  cbn. by rewrite !append_assoc.
Qed.

Lemma create_unstable s :
  str.contains "unstaged" s || str.contains "uncommitted" s = true ->
  create_pep440_version s = Raise (ValueError unstable_msg).
Proof. intros Hu. unfold create_pep440_version. by rewrite Hu. Qed.

End ScriptFacts.

(** * The claims of the specification *)

(** C1: on each of the nine inputs of the round-trip table (the table of
    the self-test of the script), [create_pep440_version] returns exactly
    the listed PEP 440 string. *)
Theorem round_trip_table :
  create_pep440_version
    "v0.14.0-alpha.1.2+f0e563586.feature-MLB-2000-developer-create-python-compatibl"
    = Ok "0.14.0a1.dev2+f0e563586" /\
  create_pep440_version "v0.14.0-alpha.1.2" = Ok "0.14.0a1.dev2" /\
  create_pep440_version "v0.14.0-alpha.1" = Ok "0.14.0a1" /\
  create_pep440_version "v0.14.0-beta.1" = Ok "0.14.0b1" /\
  create_pep440_version "v0.14.0-rc.1" = Ok "0.14.0rc1" /\
  create_pep440_version "v0.13.1-dev.1" = Ok "0.13.1.dev1" /\
  create_pep440_version "v0.14.0" = Ok "0.14.0" /\
  create_pep440_version "v0.15.0" = Ok "0.15.0" /\
  create_pep440_version "v1.15.0" = Ok "1.15.0".
Proof. repeat split; vm_compute; reflexivity. Qed.

(** The self-test of the script passes: it prints its message and ends
    normally. *)
Lemma self_test_passes : _test_create_pep440_version = (["Test passed."], Ok tt).
Proof. vm_compute. reflexivity. Qed.

(** C2: an input that the pattern does not match is not rejected with the
    [ValueError] of the other rejections. [re.match] returns [None], and
    the call of [groupdict] on it raises [AttributeError]; only when the
    input also holds one of the two markers does the guard in front of the
    match raise [ValueError]. *)
Theorem no_match_raises_attribute_error (s : string) :
  re.match_ semver_pattern s = None ->
  create_pep440_version s =
    if str.contains "unstaged" s || str.contains "uncommitted" s
    then Raise (ValueError unstable_msg)
    else Raise (AttributeError none_groupdict_msg).
Proof.
  intros Hm. unfold create_pep440_version. rewrite Hm.
  by destruct (str.contains "unstaged" s || str.contains "uncommitted" s).
Qed.

Lemma no_match_raises_attribute_error_witness :
  create_pep440_version "1.0.0" = Raise (AttributeError none_groupdict_msg).
Proof.
  apply (no_match_raises_attribute_error "1.0.0"). vm_compute. reflexivity.
Defined.

(** C3: an input that contains "unstaged" or "uncommitted" anywhere is
    rejected with [ValueError], whatever the rest of it is. *)
Theorem unstable_marker_rejected (s : string) :
  (exists a b, s = a +:+ "unstaged" +:+ b) \/
  (exists a b, s = a +:+ "uncommitted" +:+ b) ->
  create_pep440_version s = Raise (ValueError unstable_msg).
Proof.
  intros H. apply create_unstable. apply orb_true_iff.
  destruct H as [H|H]; [left|right]; by apply contains_spec.
Qed.

Lemma unstable_marker_rejected_witness :
  create_pep440_version "v0.14.0-alpha.1.2+f0e563586.uncommitted"
  = Raise (ValueError unstable_msg).
Proof.
  apply (unstable_marker_rejected "v0.14.0-alpha.1.2+f0e563586.uncommitted").
  right. exists "v0.14.0-alpha.1.2+f0e563586.", "". reflexivity.
Defined.

Lemma short_name_table (cycle short : string) :
  (cycle, short) ∈ [("alpha", "a"); ("beta", "b"); ("rc", "rc")] ->
  prerelease_cycle_to_short_name !! cycle = Some short.
Proof.
  rewrite !elem_of_cons, elem_of_nil.
  intros [[= -> ->]|[[= -> ->]|[[= -> ->]|[]]]]; reflexivity.
Qed.

(** C5, the claim as stated fails: the pattern matches an input whose
    prerelease is beta and one further part, and there is no output,
    because the further part is a marker and the guard raises. *)
Lemma cycle_prerelease_marker_no_output :
  exists m,
    re.match_ semver_pattern "v1.0.0-beta.unstaged" = Some m /\
    groupdict m !! "prerelease" = Some (Some "beta.unstaged") /\
    str.split "." "beta.unstaged" = ["beta"; "unstaged"] /\
    create_pep440_version "v1.0.0-beta.unstaged" = Raise (ValueError unstable_msg).
Proof.
  exists (MatchObject semver_pattern
            (<["prerelease" := "beta.unstaged"]>
               (<["patch" := "0"]> (<["minor" := "0"]> (<["major" := "1"]> ∅))))).
  repeat split; vm_compute; reflexivity.
Qed.

(** C5, amended: for an input that holds neither marker, that the pattern
    matches and whose prerelease splits on "." into parts that start with
    alpha, beta or rc: with two parts the output is the release, then the
    short name and part 1, then the local label, with no development
    segment; with three parts the development segment [.dev{part2}] stands
    between part 1 and the label. An input of this shape that holds a
    marker is rejected by the guard. *)
Theorem cycle_prerelease_segments
    (s : string) (m : match_object) (major minor patch p cycle short part1 : string)
    (rest : list string) :
  re.match_ semver_pattern s = Some m ->
  groupdict m !! "major" = Some (Some major) ->
  groupdict m !! "minor" = Some (Some minor) ->
  groupdict m !! "patch" = Some (Some patch) ->
  groupdict m !! "prerelease" = Some (Some p) ->
  str.split "." p = cycle :: part1 :: rest ->
  (cycle, short) ∈ [("alpha", "a"); ("beta", "b"); ("rc", "rc")] ->
  (rest = [] ->
   create_pep440_version s =
     if str.contains "unstaged" s || str.contains "uncommitted" s
     then Raise (ValueError unstable_msg)
     else Ok (major +:+ "." +:+ minor +:+ "." +:+ patch +:+ short +:+ part1
              +:+ _get_local_version_label (groupdict m))) /\
  (forall part2, rest = [part2] ->
   create_pep440_version s =
     if str.contains "unstaged" s || str.contains "uncommitted" s
     then Raise (ValueError unstable_msg)
     else Ok (major +:+ "." +:+ minor +:+ "." +:+ patch +:+ short +:+ part1
              +:+ ".dev" +:+ part2 +:+ _get_local_version_label (groupdict m))).
Proof.
  intros Hm Hmaj Hmin Hpat Hpre Hs Hc%short_name_table.
  destruct (str.contains "unstaged" s || str.contains "uncommitted" s) eqn:Hu.
  { split; intros; apply create_unstable; assumption. }
  rewrite (create_matched s m major minor patch) by done.
  split.
  - intros ->. rewrite (segments_cycle_two _ p cycle short part1) by done.
    by rewrite append_assoc, append_nil_l.
  - intros part2 ->. rewrite (segments_cycle_three _ p cycle short part1 part2) by done.
    by rewrite !append_assoc.
Qed.

Lemma cycle_prerelease_segments_witness :
  create_pep440_version "v0.14.0-beta.1" = Ok "0.14.0b1" /\
  create_pep440_version "v0.14.0-rc.1.2+f0e563586.feature" = Ok "0.14.0rc1.dev2+f0e563586".
Proof.
  split.
  - refine (proj1 (cycle_prerelease_segments "v0.14.0-beta.1"
                     (MatchObject semver_pattern
                        (<["prerelease" := "beta.1"]>
                           (<["patch" := "0"]> (<["minor" := "14"]> (<["major" := "0"]> ∅)))))
                   "0" "14" "0" "beta.1" "beta" "b" "1" [] _ _ _ _ _ _ _) eq_refl);
      try (vm_compute; reflexivity).
    repeat constructor.
  - refine (proj2 (cycle_prerelease_segments "v0.14.0-rc.1.2+f0e563586.feature"
                     (MatchObject semver_pattern
                        (<["buildmetadata" := "f0e563586.feature"]>
                           (<["prerelease" := "rc.1.2"]>
                              (<["patch" := "0"]>
                                 (<["minor" := "14"]> (<["major" := "0"]> ∅))))))
                     "0" "14" "0" "rc.1.2" "rc" "rc" "1" ["2"] _ _ _ _ _ _ _) "2" eq_refl);
      try (vm_compute; reflexivity).
    repeat constructor.
Defined.

(** When the prerelease cannot be handled, the whole conversion raises
    [ValueError]: the one of the guard on the markers or the one of
    [raise_error]. *)
Lemma create_segments_raise (s : string) (m : match_object) (p : string) :
  re.match_ semver_pattern s = Some m ->
  _get_prerelease_and_dev_segment (groupdict m) = raise_error p ->
  exists msg, create_pep440_version s = Raise (ValueError msg).
Proof.
  intros Hm Hseg.
  destruct (str.contains "unstaged" s || str.contains "uncommitted" s) eqn:Hu.
  { eexists. by apply create_unstable. }
  destruct (semver_release_present s m Hm) as (major & minor & patch & Hmaj & Hmin & Hpat).
  rewrite (create_matched s m major minor patch), Hseg by done.
  by eexists.
Qed.

(** C6, the claim as stated fails: the pattern matches an input whose
    prerelease is dev and one further part, and nothing is appended:
    there is no output, because the build metadata holds a marker and the
    guard raises. *)
Lemma dev_prerelease_marker_no_output :
  exists m,
    re.match_ semver_pattern "v1.0.0-dev.1+abc.uncommitted" = Some m /\
    groupdict m !! "prerelease" = Some (Some "dev.1") /\
    str.split "." "dev.1" = ["dev"; "1"] /\
    create_pep440_version "v1.0.0-dev.1+abc.uncommitted"
    = Raise (ValueError unstable_msg).
Proof.
  exists (MatchObject semver_pattern
            (<["buildmetadata" := "abc.uncommitted"]>
               (<["prerelease" := "dev.1"]>
                  (<["patch" := "0"]> (<["minor" := "0"]> (<["major" := "1"]> ∅)))))).
  repeat split; vm_compute; reflexivity.
Qed.

(** C6, amended: for an input that the pattern matches and whose prerelease
    starts with the part dev: with two parts and neither marker in the
    input, the output is the release, then [.dev{part1}], then the local
    label, with no prerelease segment (with a marker the guard rejects the
    input); with three parts the conversion raises [ValueError]. *)
Theorem dev_prerelease_segments
    (s : string) (m : match_object) (major minor patch p : string) (rest : list string) :
  re.match_ semver_pattern s = Some m ->
  groupdict m !! "major" = Some (Some major) ->
  groupdict m !! "minor" = Some (Some minor) ->
  groupdict m !! "patch" = Some (Some patch) ->
  groupdict m !! "prerelease" = Some (Some p) ->
  str.split "." p = "dev" :: rest ->
  (forall part1, rest = [part1] ->
   create_pep440_version s =
     if str.contains "unstaged" s || str.contains "uncommitted" s
     then Raise (ValueError unstable_msg)
     else Ok (major +:+ "." +:+ minor +:+ "." +:+ patch +:+ ".dev" +:+ part1
              +:+ _get_local_version_label (groupdict m))) /\
  (length rest = 2 -> exists msg, create_pep440_version s = Raise (ValueError msg)).
Proof.
  intros Hm Hmaj Hmin Hpat Hpre Hs. split.
  - intros part1 ->.
    destruct (str.contains "unstaged" s || str.contains "uncommitted" s) eqn:Hu.
    { by apply create_unstable. }
    rewrite (create_matched s m major minor patch) by done.
    rewrite (segments_dev_two _ p part1) by done.
    by rewrite append_nil_l, append_assoc.
  - intros Hlen. destruct rest as [|part1 [|part2 [|? ?]]]; try done.
    apply (create_segments_raise s m p Hm).
    by apply (segments_dev_three _ p part1 part2).
Qed.

Lemma dev_prerelease_segments_witness :
  create_pep440_version "v0.13.1-dev.1" = Ok "0.13.1.dev1" /\
  exists msg, create_pep440_version "v0.13.1-dev.1.2" = Raise (ValueError msg).
Proof.
  split.
  - refine (proj1 (dev_prerelease_segments "v0.13.1-dev.1"
                     (MatchObject semver_pattern
                        (<["prerelease" := "dev.1"]>
                           (<["patch" := "1"]> (<["minor" := "13"]> (<["major" := "0"]> ∅)))))
                     "0" "13" "1" "dev.1" ["1"] _ _ _ _ _ _) "1" eq_refl);
      vm_compute; reflexivity.
  - refine (proj2 (dev_prerelease_segments "v0.13.1-dev.1.2"
                     (MatchObject semver_pattern
                        (<["prerelease" := "dev.1.2"]>
                           (<["patch" := "1"]> (<["minor" := "13"]> (<["major" := "0"]> ∅)))))
                     "0" "13" "1" "dev.1.2" ["1"; "2"] _ _ _ _ _ _) eq_refl);
      vm_compute; reflexivity.
Defined.

(** C7: an input that the pattern matches and whose prerelease splits on
    "." into a number of parts other than 2 and 3 is rejected with
    [ValueError]. *)
Theorem prerelease_part_count_rejected (s : string) (m : match_object) (p : string) :
  re.match_ semver_pattern s = Some m ->
  groupdict m !! "prerelease" = Some (Some p) ->
  length (str.split "." p) <> 2 ->
  length (str.split "." p) <> 3 ->
  exists msg, create_pep440_version s = Raise (ValueError msg).
Proof.
  intros Hm Hpre H2 H3. apply (create_segments_raise s m p Hm).
  apply segments_part_count; try done.
  by apply (semver_group_nonempty s m "prerelease").
Qed.

Lemma prerelease_part_count_rejected_witness :
  (exists msg, create_pep440_version "v1.0.0-alpha" = Raise (ValueError msg)) /\
  (exists msg, create_pep440_version "v1.0.0-alpha.1.2.3" = Raise (ValueError msg)).
Proof.
  split.
  - apply (prerelease_part_count_rejected "v1.0.0-alpha"
             (MatchObject semver_pattern
                (<["prerelease" := "alpha"]>
                   (<["patch" := "0"]> (<["minor" := "0"]> (<["major" := "1"]> ∅)))))
             "alpha"); vm_compute; (reflexivity || discriminate).
  - apply (prerelease_part_count_rejected "v1.0.0-alpha.1.2.3"
             (MatchObject semver_pattern
                (<["prerelease" := "alpha.1.2.3"]>
                   (<["patch" := "0"]> (<["minor" := "0"]> (<["major" := "1"]> ∅)))))
             "alpha.1.2.3"); vm_compute; (reflexivity || discriminate).
Defined.

(** C8: an input that the pattern matches and whose prerelease starts with
    a part other than alpha, beta, rc and dev is rejected with
    [ValueError]. *)
Theorem unknown_cycle_label_rejected
    (s : string) (m : match_object) (p cycle : string) (rest : list string) :
  re.match_ semver_pattern s = Some m ->
  groupdict m !! "prerelease" = Some (Some p) ->
  str.split "." p = cycle :: rest ->
  cycle ∉ ["alpha"; "beta"; "rc"; "dev"] ->
  exists msg, create_pep440_version s = Raise (ValueError msg).
Proof.
  intros Hm Hpre Hs Hc. apply (create_segments_raise s m p Hm).
  apply (segments_unknown_cycle _ p cycle rest); try done.
  by apply (semver_group_nonempty s m "prerelease").
Qed.

Lemma unknown_cycle_label_rejected_witness :
  exists msg, create_pep440_version "v1.0.0-gamma.1" = Raise (ValueError msg).
Proof.
  apply (unknown_cycle_label_rejected "v1.0.0-gamma.1"
           (MatchObject semver_pattern
              (<["prerelease" := "gamma.1"]>
                 (<["patch" := "0"]> (<["minor" := "0"]> (<["major" := "1"]> ∅)))))
           "gamma.1" "gamma" ["1"]); try (vm_compute; reflexivity).
  rewrite !elem_of_cons, elem_of_nil. intuition discriminate.
Defined.

(** The two segments depend on the prerelease entry only. *)
Lemma segments_ext (d d' : gmap string (option string)) :
  d' !! "prerelease" = d !! "prerelease" ->
  _get_prerelease_and_dev_segment d' = _get_prerelease_and_dev_segment d.
Proof.
  intros H. unfold _get_prerelease_and_dev_segment, dict_get. by rewrite H.
Qed.

(** The label is "+" and the first element of the split of the build
    metadata. *)
Lemma label_first_segment (d : gmap string (option string)) (bm seg : string) :
  d !! "buildmetadata" = Some (Some bm) -> bm <> "" ->
  head (str.split "." bm) = Some seg ->
  _get_local_version_label d = "+" +:+ seg.
Proof.
  intros Hd Hbm Hseg. unfold _get_local_version_label, dict_get.
  rewrite Hd, (truthy_nonempty bm Hbm). cbn [str.format].
  destruct (partition_split "." bm) as [rest Hrest]. rewrite Hrest in Hseg.
  by injection Hseg as ->.
Qed.

(** C4, the claim as stated fails: the pattern matches an input with build
    metadata that holds a marker in a later segment, and the conversion
    returns no output: nothing is appended, the marker guard raises. *)
Lemma build_metadata_marker_no_output :
  exists m,
    re.match_ semver_pattern "v0.14.0+f0e563586.uncommitted" = Some m /\
    groupdict m !! "buildmetadata" = Some (Some "f0e563586.uncommitted") /\
    str.split "." "f0e563586.uncommitted" = ["f0e563586"; "uncommitted"] /\
    create_pep440_version "v0.14.0+f0e563586.uncommitted"
    = Raise (ValueError unstable_msg).
Proof.
  exists (MatchObject semver_pattern
            (<["buildmetadata" := "f0e563586.uncommitted"]>
               (<["patch" := "0"]> (<["minor" := "14"]> (<["major" := "0"]> ∅))))).
  repeat split; vm_compute; reflexivity.
Qed.

(** C4, amended: when the pattern matches an input with build metadata and
    the conversion returns an output, that output is the release, the
    prerelease segment and the development segment, then "+" and the first
    of the dot-separated segments of the build metadata, and nothing
    after it. The later segments are discarded: every input without a
    marker that the pattern matches with the same release and prerelease
    and with build metadata of the same first segment converts to the same
    output, whatever its later segments are. *)
Theorem local_label_is_first_segment
    (s : string) (m : match_object) (major minor patch bm out : string) :
  re.match_ semver_pattern s = Some m ->
  groupdict m !! "major" = Some (Some major) ->
  groupdict m !! "minor" = Some (Some minor) ->
  groupdict m !! "patch" = Some (Some patch) ->
  groupdict m !! "buildmetadata" = Some (Some bm) ->
  create_pep440_version s = Ok out ->
  exists prerelease_segment dev_segment commit_hash later,
    _get_prerelease_and_dev_segment (groupdict m) = Ok (prerelease_segment, dev_segment) /\
    str.split "." bm = commit_hash :: later /\
    out = major +:+ "." +:+ minor +:+ "." +:+ patch +:+ prerelease_segment
          +:+ dev_segment +:+ "+" +:+ commit_hash /\
    forall (s' : string) (m' : match_object) (bm' : string) (later' : list string),
      re.match_ semver_pattern s' = Some m' ->
      (forall name, name ∈ ["major"; "minor"; "patch"; "prerelease"] ->
                    groupdict m' !! name = groupdict m !! name) ->
      groupdict m' !! "buildmetadata" = Some (Some bm') ->
      str.split "." bm' = commit_hash :: later' ->
      str.contains "unstaged" s' || str.contains "uncommitted" s' = false ->
      create_pep440_version s' = Ok out.
Proof.
  intros Hm Hmaj Hmin Hpat Hbm Hout.
  destruct (str.contains "unstaged" s || str.contains "uncommitted" s) eqn:Hu.
  { by rewrite (create_unstable s Hu) in Hout. }
  rewrite (create_matched s m major minor patch) in Hout by done.
  destruct (_get_prerelease_and_dev_segment (groupdict m)) as [[pre dev]|e] eqn:Hseg; [|done].
  destruct (partition_split "." bm) as [later Hsplit].
  set (commit_hash := (str.partition "." bm).1.1) in *.
  assert (bm <> "") as Hne by (by apply (semver_group_nonempty s m "buildmetadata")).
  rewrite (label_first_segment _ bm commit_hash) in Hout by (by rewrite ?Hsplit).
  injection Hout as <-.
  exists pre, dev, commit_hash, later. repeat split; [done|].
  intros s' m' bm' later' Hm' Hsame Hbm' Hsplit' Hu'.
  rewrite (create_matched s' m' major minor patch); try done.
  - rewrite (segments_ext (groupdict m) (groupdict m')), Hseg by (apply Hsame; repeat constructor).
    rewrite (label_first_segment _ bm' commit_hash); try done.
    + by apply (semver_group_nonempty s' m' "buildmetadata").
    + by rewrite Hsplit'.
  - rewrite Hsame; [done|repeat constructor].
  - rewrite Hsame; [done|repeat constructor].
  - rewrite Hsame; [done|repeat constructor].
Qed.

Lemma local_label_is_first_segment_witness :
  exists prerelease_segment dev_segment commit_hash later,
    str.split "." "f0e563586.feature-MLB-2000-developer-create-python-compatibl"
      = commit_hash :: later /\
    "0.14.0a1.dev2+f0e563586"
      = "0" +:+ "." +:+ "14" +:+ "." +:+ "0" +:+ prerelease_segment
        +:+ dev_segment +:+ "+" +:+ commit_hash.
Proof.
  destruct (local_label_is_first_segment
              "v0.14.0-alpha.1.2+f0e563586.feature-MLB-2000-developer-create-python-compatibl"
              (MatchObject semver_pattern
                 (<["buildmetadata" :=
                      "f0e563586.feature-MLB-2000-developer-create-python-compatibl"]>
                    (<["prerelease" := "alpha.1.2"]>
                       (<["patch" := "0"]> (<["minor" := "14"]> (<["major" := "0"]> ∅))))))
              "0" "14" "0" "f0e563586.feature-MLB-2000-developer-create-python-compatibl"
              "0.14.0a1.dev2+f0e563586")
    as (pre & dev & hash & later & _ & Hsplit & Hout & _);
    try (vm_compute; reflexivity).
  by exists pre, dev, hash, later.
Defined.

(** C9, the claim as stated fails: the message on standard error is not
    the quoted text but that text after the prefix "Error: ". *)
Lemma usage_message_has_error_prefix :
  diagnostic (main ["create_pep440_version.py"])
    = Some "Error: Expected 1 argument, got 0." /\
  diagnostic (main ["create_pep440_version.py"])
    <> Some "Expected 1 argument, got 0.".
Proof. split; vm_compute; [reflexivity|discriminate]. Qed.

(** C9, amended: called with a number [n] of arguments other than 1, the
    program writes nothing to standard output and ends through [sys.exit]
    with the message "Error: Expected 1 argument, got [n]." and a non-zero
    exit status. *)
Theorem wrong_argument_count_exits (prog : string) (args : list string) :
  length args <> 1 ->
  main (prog :: args)
    = ([], Raise (SystemExit ("Error: Expected 1 argument, got "
                              +:+ str.of_int (Z.of_nat (length args)) +:+ "."))) /\
  diagnostic (main (prog :: args))
    = Some ("Error: Expected 1 argument, got "
            +:+ str.of_int (Z.of_nat (length args)) +:+ ".") /\
  exit_status (main (prog :: args)) <> 0%Z.
Proof.
  intros Hn.
  assert (main (prog :: args)
          = ([], Raise (SystemExit ("Error: Expected 1 argument, got "
                                    +:+ str.of_int (Z.of_nat (length args)) +:+ ".")))) as E.
  { unfold main. cbn [length].
    destruct (Z.eqb_spec (Z.of_nat (S (length args))) 2) as [H2|H2]; [exfalso; lia|].
    cbn [negb]. by replace (Z.of_nat (S (length args)) - 1)%Z with (Z.of_nat (length args)) by lia. }
  rewrite E. by repeat split.
Qed.

Lemma wrong_argument_count_exits_witness :
  diagnostic (main ["create_pep440_version.py"; "v0.14.0"; "v0.15.0"])
    = Some "Error: Expected 1 argument, got 2." /\
  diagnostic (main ["create_pep440_version.py"])
    = Some "Error: Expected 1 argument, got 0.".
Proof.
  split.
  - apply (wrong_argument_count_exits "create_pep440_version.py" ["v0.14.0"; "v0.15.0"]).
    cbn. lia.
  - apply (wrong_argument_count_exits "create_pep440_version.py" []).
    cbn. lia.
Defined.


(** ** Further facts about the match *)

(** The end anchor of the pattern also holds in front of a newline that
    ends the input: such an input is matched and converted like the input
    without the newline. *)
Lemma trailing_newline_accepted :
  create_pep440_version ("v1.0.0" +:+ String newline "") = Ok "1.0.0".
Proof. vm_compute. reflexivity. Qed.

(** * Further properties of the script *)

(** ** Behaviour of the functions on any dictionary *)

Section SegmentFacts.

Implicit Types (d : gmap string (option string)).

(** The text in front of the first separator holds no separator, and the
    three parts of a partition make up the text. *)
Lemma partition_spec (sep : ascii) (s : string) :
  s = (str.partition sep s).1.1 +:+ (str.partition sep s).1.2 +:+ (str.partition sep s).2 /\
  str.contains (String sep "") (str.partition sep s).1.1 = false /\
  ((str.partition sep s).1.2 = String sep "" \/
   (str.partition sep s).1.2 = "" /\ (str.partition sep s).2 = "").
Proof.
  induction s as [|c s (IH1 & IH2 & IH3)]; cbn.
  - split; [done|]. split; [done|]. by right.
  - destruct (Ascii.eqb_spec c sep) as [->|Hne]; cbn.
    + split; [done|]. split; [done|]. by left.
    + destruct (str.partition sep s) as [[a m] b]. cbn in *.
      split; [by rewrite append_cons, <- IH1|].
      split; [|done].
      apply Ascii.eqb_neq in Hne. rewrite Ascii.eqb_sym in Hne. by rewrite Hne.
Qed.

(** X1. A dictionary without a prerelease (no entry, the entry [None], or
    the empty text) gives two empty segments and no error. *)
Theorem segments_without_prerelease d :
  d !! "prerelease" = None \/ d !! "prerelease" = Some None \/
  d !! "prerelease" = Some (Some "") ->
  _get_prerelease_and_dev_segment d = Ok ("", "").
Proof.
  unfold _get_prerelease_and_dev_segment, dict_get.
  by intros [->|[->| ->]].
Qed.

Lemma segments_without_prerelease_witness :
  _get_prerelease_and_dev_segment ∅ = Ok ("", "") /\
  _get_prerelease_and_dev_segment (<["prerelease" := Some ""]> ∅) = Ok ("", "").
Proof.
  split.
  - apply (segments_without_prerelease ∅). left. reflexivity.
  - apply (segments_without_prerelease (<["prerelease" := Some ""]> ∅)).
    right. right. reflexivity.
Defined.

(** What [_get_prerelease_and_dev_segment] returns for a prerelease that
    is present, by the parts of its split. *)
Lemma segments_cases d p :
  d !! "prerelease" = Some (Some p) -> p <> "" ->
  _get_prerelease_and_dev_segment d =
    match str.split "." p with
    | [cycle; part1] =>
        match prerelease_cycle_to_short_name !! cycle with
        | Some short => Ok (short +:+ part1, "")
        | None => if String.eqb cycle "dev" then Ok ("", ".dev" +:+ part1)
                  else raise_error p
        end
    | [cycle; part1; part2] =>
        match prerelease_cycle_to_short_name !! cycle with
        | Some short => Ok (short +:+ part1, ".dev" +:+ part2)
        | None => raise_error p
        end
    | _ => raise_error p
    end.
Proof.
  intros Hd Hp. rewrite (segments_unfold d p Hd Hp). cbn zeta.
  destruct (str.split "." p) as [|cycle [|part1 [|part2 [|part3 rest]]]]; try done.
  - cbn. destruct (prerelease_cycle_to_short_name !! cycle) as [short|] eqn:Hc.
    + by destruct (short_name_truthy _ _ Hc) as [_ <-];
        apply short_name_cases in Hc as [[_ ->]|[[_ ->]|[_ ->]]].
    + cbn. by destruct (String.eqb cycle "dev").
  - cbn. destruct (prerelease_cycle_to_short_name !! cycle) as [short|] eqn:Hc.
    + by destruct (short_name_truthy _ _ Hc) as [_ <-];
        apply short_name_cases in Hc as [[_ ->]|[[_ ->]|[_ ->]]].
    + cbn. by destruct (String.eqb cycle "dev").
Qed.

(** The only error of [_get_prerelease_and_dev_segment] is the one of
    [raise_error]. *)
Lemma segments_error d e :
  _get_prerelease_and_dev_segment d = Raise e ->
  exists p, d !! "prerelease" = Some (Some p) /\ p <> "" /\
            e = ValueError ("Do not know how to handle prerelease " +:+ p +:+ ".").
Proof.
  intros H.
  destruct (d !! "prerelease") as [[[|c p]|]|] eqn:Hd;
    try (by unfold _get_prerelease_and_dev_segment, dict_get in H; rewrite Hd in H).
  exists (String c p). split; [done|]. split; [done|].
  rewrite (segments_cases d (String c p)) in H by done.
  destruct (str.split "." (String c p)) as [|cycle [|part1 [|part2 [|part3 rest]]]];
    try (by injection H as <-).
  - destruct (prerelease_cycle_to_short_name !! cycle); [done|].
    destruct (String.eqb cycle "dev"); [done|]. by injection H as <-.
  - destruct (prerelease_cycle_to_short_name !! cycle); [done|]. by injection H as <-.
Qed.

(** X2. Whatever the dictionary, the only error of
    [_get_prerelease_and_dev_segment] is the [ValueError] of [raise_error],
    whose message quotes the whole prerelease; the list accesses never go
    out of range. *)
Theorem segments_raise_only_value_error d e :
  _get_prerelease_and_dev_segment d = Raise e ->
  exists p, d !! "prerelease" = Some (Some p) /\ p <> "" /\
            e = ValueError ("Do not know how to handle prerelease " +:+ p +:+ ".").
Proof. exact (segments_error d e). Qed.

Lemma segments_raise_only_value_error_witness :
  exists p, (<["prerelease" := Some "gamma.1"]> ∅ : gmap string (option string))
              !! "prerelease" = Some (Some p) /\ p <> "" /\
            ValueError "Do not know how to handle prerelease gamma.1."
            = ValueError ("Do not know how to handle prerelease " +:+ p +:+ ".").
Proof.
  apply (segments_raise_only_value_error (<["prerelease" := Some "gamma.1"]> ∅)).
  vm_compute. reflexivity.
Defined.

(** The prereleases that [_get_prerelease_and_dev_segment] accepts. *)
Lemma segments_accepted d p :
  d !! "prerelease" = Some (Some p) -> p <> "" ->
  (exists segments, _get_prerelease_and_dev_segment d = Ok segments) <->
  (exists cycle part1 rest,
     str.split "." p = cycle :: part1 :: rest /\
     (cycle ∈ ["alpha"; "beta"; "rc"] /\ length rest <= 1 \/
      cycle = "dev" /\ rest = [])).
Proof.
  intros Hd Hp. rewrite (segments_cases d p Hd Hp). split.
  - intros [segments H].
    destruct (str.split "." p) as [|cycle [|part1 [|part2 [|part3 rest]]]]; try done.
    + exists cycle, part1, []. split; [done|].
      destruct (prerelease_cycle_to_short_name !! cycle) as [short|] eqn:Hc.
      * left. split; [|cbn; lia].
        apply short_name_cases in Hc as [[-> _]|[[-> _]|[-> _]]]; repeat constructor.
      * destruct (String.eqb_spec cycle "dev") as [->|]; [by right|done].
    + exists cycle, part1, [part2]. split; [done|].
      destruct (prerelease_cycle_to_short_name !! cycle) as [short|] eqn:Hc; [|done].
      left. split; [|cbn; lia].
      apply short_name_cases in Hc as [[-> _]|[[-> _]|[-> _]]]; repeat constructor.
  - intros (cycle & part1 & rest & -> & [[Hc Hlen]|[-> ->]]).
    + assert (exists short, prerelease_cycle_to_short_name !! cycle = Some short) as [short ->].
      { rewrite !elem_of_cons, elem_of_nil in Hc.
        destruct Hc as [->|[->|[->|[]]]]; by eexists. }
      destruct rest as [|part2 [|? ?]]; [by eexists|by eexists|cbn in Hlen; lia].
    + by eexists.
Qed.

(** X3. The prereleases that [_get_prerelease_and_dev_segment] accepts are
    exactly: alpha, beta or rc with one or two further parts, and dev with
    one further part. *)
Theorem segments_accepted_shapes d p :
  d !! "prerelease" = Some (Some p) -> p <> "" ->
  (exists segments, _get_prerelease_and_dev_segment d = Ok segments) <->
  (exists cycle part1 rest,
     str.split "." p = cycle :: part1 :: rest /\
     (cycle ∈ ["alpha"; "beta"; "rc"] /\ length rest <= 1 \/
      cycle = "dev" /\ rest = [])).
Proof. exact (segments_accepted d p). Qed.

Lemma segments_accepted_shapes_witness :
  (exists segments,
     _get_prerelease_and_dev_segment (<["prerelease" := Some "rc.1.2"]> ∅) = Ok segments) <->
  (exists cycle part1 rest,
     str.split "." "rc.1.2" = cycle :: part1 :: rest /\
     (cycle ∈ ["alpha"; "beta"; "rc"] /\ length rest <= 1 \/
      cycle = "dev" /\ rest = [])).
Proof.
  apply (segments_accepted_shapes (<["prerelease" := Some "rc.1.2"]> ∅) "rc.1.2").
  - vm_compute. reflexivity.
  - discriminate.
Defined.

(** The shape of the local version label. *)
Lemma label_shape d :
  match dict_get d "buildmetadata" with
  | Some (String c bm) =>
      exists commit_hash rest,
        String c bm = commit_hash +:+ rest /\
        (rest = "" \/ exists rest', rest = "." +:+ rest') /\
        str.contains "." commit_hash = false /\
        _get_local_version_label d = "+" +:+ commit_hash /\
        str.contains "." (_get_local_version_label d) = false
  | _ => _get_local_version_label d = ""
  end.
Proof.
  unfold _get_local_version_label.
  destruct (dict_get d "buildmetadata") as [[|c bm]|]; try done.
  cbn [str.truthy str.format].
  destruct (partition_spec "." (String c bm)) as (Hs & Hno & Hm).
  destruct (str.partition "." (String c bm)) as [[h m] b]. cbn [fst snd] in *.
  exists h, (m +:+ b). repeat split; try done.
  destruct Hm as [->|[-> ->]]; [right; by exists b|by left].
Qed.

(** X4. Whatever the dictionary, the local version label is empty when
    there is no build metadata (no entry, [None] or the empty text), and
    otherwise "+" and the text of the build metadata up to its first dot,
    so that the label never holds a dot. *)
Theorem local_label_shape d :
  match dict_get d "buildmetadata" with
  | Some (String c bm) =>
      exists commit_hash rest,
        String c bm = commit_hash +:+ rest /\
        (rest = "" \/ exists rest', rest = "." +:+ rest') /\
        str.contains "." commit_hash = false /\
        _get_local_version_label d = "+" +:+ commit_hash /\
        str.contains "." (_get_local_version_label d) = false
  | _ => _get_local_version_label d = ""
  end.
Proof. exact (label_shape d). Qed.

End SegmentFacts.

Section ConversionFacts.

(** X5. The conversion fails in three ways only: with the [ValueError] of
    the guard when the input holds a marker; with [AttributeError] when it
    holds none and the pattern does not match; with the [ValueError] of
    [raise_error] when the pattern matches and the prerelease is not
    handled. It never fails with [KeyError] or [IndexError]. *)
Theorem create_raises_only (s : string) (e : exn) :
  create_pep440_version s = Raise e ->
  (str.contains "unstaged" s || str.contains "uncommitted" s = true /\
   e = ValueError unstable_msg) \/
  (str.contains "unstaged" s || str.contains "uncommitted" s = false /\
   re.match_ semver_pattern s = None /\
   e = AttributeError none_groupdict_msg) \/
  (str.contains "unstaged" s || str.contains "uncommitted" s = false /\
   exists m p,
     re.match_ semver_pattern s = Some m /\
     groupdict m !! "prerelease" = Some (Some p) /\
     e = ValueError ("Do not know how to handle prerelease " +:+ p +:+ ".")).
Proof.
  intros H.
  destruct (str.contains "unstaged" s || str.contains "uncommitted" s) eqn:Hu.
  { left. rewrite (create_unstable s Hu) in H. by injection H as <-. }
  right. destruct (re.match_ semver_pattern s) as [m|] eqn:Hm.
  - right. split; [done|].
    destruct (semver_release_present s m Hm) as (major & minor & patch & Hmaj & Hmin & Hpat).
    rewrite (create_matched s m major minor patch) in H by done.
    destruct (_get_prerelease_and_dev_segment (groupdict m)) as [[a b]|e'] eqn:Hseg; [done|].
    injection H as <-.
    apply segments_error in Hseg as (p & Hp & _ & ->).
    by exists m, p.
  - left. unfold create_pep440_version in H. rewrite Hu, Hm in H.
    by injection H as <-.
Qed.

Lemma create_raises_only_witness :
  (str.contains "unstaged" "v1.0" || str.contains "uncommitted" "v1.0" = true /\
   AttributeError none_groupdict_msg = ValueError unstable_msg) \/
  (str.contains "unstaged" "v1.0" || str.contains "uncommitted" "v1.0" = false /\
   re.match_ semver_pattern "v1.0" = None /\
   AttributeError none_groupdict_msg = AttributeError none_groupdict_msg) \/
  (str.contains "unstaged" "v1.0" || str.contains "uncommitted" "v1.0" = false /\
   exists m p,
     re.match_ semver_pattern "v1.0" = Some m /\
     groupdict m !! "prerelease" = Some (Some p) /\
     AttributeError none_groupdict_msg
     = ValueError ("Do not know how to handle prerelease " +:+ p +:+ ".")).
Proof.
  apply (create_raises_only "v1.0" (AttributeError none_groupdict_msg)).
  vm_compute. reflexivity.
Defined.

(** X6. Called with one argument other than "test", the program prints
    the converted version on one line and ends normally when the
    conversion succeeds; when it fails the program prints nothing and ends
    with the exception and exit status 1. Called with the argument "test"
    it runs the self-test, which passes. *)
Theorem main_one_argument (prog arg : string) :
  (arg <> "test" ->
   forall pep440_version, create_pep440_version arg = Ok pep440_version ->
     main [prog; arg] = ([pep440_version], Ok tt) /\
     exit_status (main [prog; arg]) = 0%Z) /\
  (arg <> "test" ->
   forall e, create_pep440_version arg = Raise e ->
     main [prog; arg] = ([], Raise e) /\
     exit_status (main [prog; arg]) = 1%Z) /\
  (arg = "test" ->
     main [prog; arg] = (["Test passed."], Ok tt) /\
     exit_status (main [prog; arg]) = 0%Z).
Proof.
  split; [|split].
  - intros Hne%String.eqb_neq v Hv. unfold exit_status, main. cbn.
    by rewrite Hne, Hv.
  - intros Hne%String.eqb_neq e He. unfold exit_status, main. cbn.
    by rewrite Hne, He.
  - intros ->. unfold exit_status. by vm_compute.
Qed.

Lemma main_one_argument_witness :
  main ["create_pep440_version.py"; "v0.14.0-alpha.1.2"] = (["0.14.0a1.dev2"], Ok tt) /\
  main ["create_pep440_version.py"; "0.14.0"]
    = ([], Raise (AttributeError none_groupdict_msg)) /\
  main ["create_pep440_version.py"; "test"] = (["Test passed."], Ok tt).
Proof.
  split; [|split].
  - apply (proj1 (main_one_argument "create_pep440_version.py" "v0.14.0-alpha.1.2"));
      [discriminate|vm_compute; reflexivity].
  - apply (proj1 (proj2 (main_one_argument "create_pep440_version.py" "0.14.0")));
      [discriminate|vm_compute; reflexivity].
  - apply (proj2 (proj2 (main_one_argument "create_pep440_version.py" "test"))).
    reflexivity.
Defined.

End ConversionFacts.

Ltac in_bind H :=
  let t := fresh "t" in let g := fresh "g" in let s := fresh "s" in
  let Hin := fresh "Hin" in
  apply list_elem_of_bind in H as ([[t g] s] & H & Hin).

Ltac in_single H :=
  apply list_elem_of_singleton in H; injection H as -> -> ->.

Section CharacterFacts.

Implicit Types (r : regex) (g : gmap string string) (pre s t : string) (f : ascii -> bool).

Lemma string_forallb_append f s t :
  string_forallb f (s +:+ t) = string_forallb f s && string_forallb f t.
Proof.
  induction s as [|c s IH]; [done|]. rewrite append_cons. cbn.
  by rewrite IH, andb_assoc.
Qed.

Lemma class_within_spec f items c :
  class_within f items = true -> existsb (in_item c) items = true -> f c = true.
Proof.
  unfold class_within. rewrite forallb_forall. intros H Hc.
  specialize (H (nat_of_ascii c)). rewrite ascii_nat_embedding in H. cbn zeta in H.
  rewrite Hc in H. apply H. apply in_seq. pose proof (nat_ascii_bounded c). lia.
Qed.

(** A pattern matches only characters it can read. *)
Lemma star_iter_text f body :
  (forall pre s g t g' s', (t, g', s') ∈ body pre s g -> string_forallb f t = true) ->
  forall n pre s g t g' s',
    (t, g', s') ∈ star_iter body n pre s g -> string_forallb f t = true.
Proof.
  intros Hb. induction n as [|n IH]; intros pre s g t g' s'; cbn.
  - intros H. by in_single H.
  - rewrite elem_of_app. intros [H|H]; [|by in_single H].
    in_bind H. destruct t0 as [|c t0]; [by apply elem_of_nil in H|].
    in_bind H. in_single H. rewrite string_forallb_append.
    apply andb_true_iff. split; eauto.
Qed.

Lemma run_text f r : forall pre s g t g' s',
  reads_only f r = true -> (t, g', s') ∈ run r pre s g -> string_forallb f t = true.
Proof.
  induction r as [| | |c|items|r1 IH1 r2 IH2|r1 IH1 r2 IH2|r IH|name r IH];
    intros pre s g t g' s'; cbn.
  - intros _ H. by in_single H.
  - intros _. destruct pre; [|by intros ?%elem_of_nil]. intros H. by in_single H.
  - intros _. destruct s as [|c [|d s]]; try (by intros ?%elem_of_nil).
    + intros H. by in_single H.
    + destruct (Ascii.eqb c newline); [|by intros ?%elem_of_nil]. intros H. by in_single H.
  - intros Hf. destruct s as [|d s]; [by intros ?%elem_of_nil|].
    destruct (Ascii.eqb_spec d c) as [->|]; [|by intros ?%elem_of_nil].
    intros H. in_single H. cbn. by rewrite Hf.
  - intros Hf. destruct s as [|d s]; [by intros ?%elem_of_nil|].
    destruct (existsb (in_item d) items) eqn:Hd; [|by intros ?%elem_of_nil].
    intros H. in_single H. cbn. by rewrite (class_within_spec f items d).
  - intros [H1 H2]%andb_true_iff H. in_bind H. in_bind H. in_single H.
    rewrite string_forallb_append. apply andb_true_iff. split; eauto.
  - intros [H1 H2]%andb_true_iff. rewrite elem_of_app. intros [H|H]; eauto.
  - intros Hf. apply (star_iter_text f). eauto.
  - intros Hf H. in_bind H. in_single H. eauto.
Qed.

Lemma fmap_bind_lift {A B : Type} (lift : A -> A) (h : B -> B)
    (k k' : A -> list B) (l : list A) :
  (forall x, x ∈ l -> k' (lift x) = h <$> k x) ->
  (lift <$> l) ≫= k' = h <$> (l ≫= k).
Proof.
  induction l as [|x l IH]; intros H; [done|]. cbn.
  rewrite fmap_app, (H x) by left. f_equal. apply IH. intros y Hy. apply H. by right.
Qed.

Lemma star_iter_newline body :
  (forall pre s g, string_forallb not_newline s = true ->
     body pre (s +:+ String newline "") g = after_newline <$> body pre s g) ->
  (forall pre s g t g' s', (t, g', s') ∈ body pre s g -> s = t +:+ s') ->
  forall n pre s g, string_forallb not_newline s = true ->
    star_iter body n pre (s +:+ String newline "") g
    = after_newline <$> star_iter body n pre s g.
Proof.
  intros Hb Happ. induction n as [|n IH]; intros pre s g Hs; [done|].
  cbn. rewrite fmap_app. f_equal. rewrite Hb by done.
  apply fmap_bind_lift. intros [[t1 g1] s1] Hin. cbn.
  destruct t1 as [|c t1]; [done|].
  apply Happ in Hin. subst s. rewrite string_forallb_append in Hs.
  apply andb_true_iff in Hs as [_ Hs]. rewrite IH by done.
  apply fmap_bind_lift. by intros [[t2 g2] s2] _.
Qed.

(** A pattern that cannot read a newline matches a text followed by a
    newline the way it matches the text, and leaves the newline unread. *)
Lemma run_newline r : forall pre s g,
  reads_only not_newline r = true -> string_forallb not_newline s = true ->
  run r pre (s +:+ String newline "") g = after_newline <$> run r pre s g.
Proof.
  induction r as [| | |c|items|r1 IH1 r2 IH2|r1 IH1 r2 IH2|r IH|name r IH];
    intros pre s g Hr Hs.
  - done.
  - cbn. by destruct pre.
  - destruct s as [|c [|d s]]; [done| |done].
    cbn in Hs. unfold not_newline in Hs. rewrite andb_true_r in Hs.
    apply negb_true_iff in Hs. rewrite append_cons, append_nil_l. cbn [run].
    by rewrite Hs.
  - destruct s as [|d s].
    + rewrite append_nil_l. cbn [run].
      destruct (Ascii.eqb_spec newline c) as [<-|]; [|done]. by vm_compute in Hr.
    + rewrite append_cons. cbn. by destruct (Ascii.eqb d c).
  - destruct s as [|d s].
    + rewrite append_nil_l. cbn [run].
      destruct (existsb (in_item newline) items) eqn:Hd; [|done].
      by pose proof (class_within_spec not_newline items newline Hr Hd).
    + rewrite append_cons. cbn. by destruct (existsb (in_item d) items).
  - cbn in Hr. apply andb_true_iff in Hr as [Hr1 Hr2]. cbn.
    rewrite IH1 by done. apply fmap_bind_lift. intros [[t1 g1] s1] Hin. cbn.
    apply run_append in Hin. subst s. rewrite string_forallb_append in Hs.
    apply andb_true_iff in Hs as [_ Hs]. rewrite IH2 by done.
    apply fmap_bind_lift. by intros [[t2 g2] s2] _.
  - cbn in Hr. apply andb_true_iff in Hr as [Hr1 Hr2]. cbn.
    by rewrite fmap_app, IH1, IH2.
  - cbn in Hr. rewrite (run_star_bound r (S (String.length s)) pre s g) by lia.
    cbn [run]. rewrite length_append. cbn [String.length].
    replace (String.length s + 1) with (S (String.length s)) by lia.
    apply star_iter_newline; [|apply run_append|done].
    intros pre' s0 g0 Hs0. by apply IH.
  - cbn in Hr. cbn. rewrite IH by done.
    apply fmap_bind_lift. by intros [[t1 g1] s1] _.
Qed.

Lemma startswith_append_char (needle s : string) (c : ascii) :
  needle <> "" -> string_forallb (fun a => negb (Ascii.eqb a c)) needle = true ->
  str.startswith needle (s +:+ String c "") = str.startswith needle s.
Proof.
  revert s. induction needle as [|a needle IH]; intros s Hne Hc; [done|].
  cbn in Hc. apply andb_true_iff in Hc as [Ha Hc]. apply negb_true_iff in Ha.
  destruct s as [|b s].
  - rewrite append_nil_l. cbn. by rewrite Ha.
  - rewrite append_cons. cbn. destruct (Ascii.eqb a b); [|done].
    destruct needle as [|a' needle]; [done|]. by apply IH.
Qed.

Lemma contains_append_char (needle s : string) (c : ascii) :
  needle <> "" -> string_forallb (fun a => negb (Ascii.eqb a c)) needle = true ->
  str.contains needle (s +:+ String c "") = str.contains needle s.
Proof.
  intros Hne Hc. induction s as [|b s IH].
  - rewrite append_nil_l. destruct needle as [|a needle]; [done|].
    cbn in *. apply andb_true_iff in Hc as [Ha _]. apply negb_true_iff in Ha.
    by rewrite Ha.
  - rewrite append_cons. cbn -[str.startswith].
    rewrite <- append_cons, startswith_append_char by done. by rewrite IH.
Qed.

(** X7. A newline behind an input that holds none changes nothing: the
    input with the newline is converted, or rejected, exactly like the
    input without it. *)
Theorem trailing_newline_ignored (s : string) :
  string_forallb not_newline s = true ->
  create_pep440_version (s +:+ String newline "") = create_pep440_version s.
Proof.
  intros Hs. unfold create_pep440_version.
  rewrite !contains_append_char by done.
  destruct (str.contains "unstaged" s || str.contains "uncommitted" s); [done|].
  unfold match_. rewrite run_newline by done.
  by destruct (run semver_pattern "" s ∅) as [|[[t g] s'] l].
Qed.

Lemma trailing_newline_ignored_witness :
  create_pep440_version ("v0.14.0-rc.1+f0e563586" +:+ String newline "")
  = create_pep440_version "v0.14.0-rc.1+f0e563586".
Proof.
  apply (trailing_newline_ignored "v0.14.0-rc.1+f0e563586"). reflexivity.
Defined.

Lemma string_forallb_impl f f' s :
  (forall c, f c = true -> f' c = true) ->
  string_forallb f s = true -> string_forallb f' s = true.
Proof.
  intros H. induction s as [|c s IH]; [done|]. cbn.
  intros [Hc Hs]%andb_true_iff. by rewrite (H c Hc), IH.
Qed.

Lemma split_forallb f (sep : ascii) s part :
  string_forallb f s = true -> part ∈ str.split sep s -> string_forallb f part = true.
Proof.
  revert part. induction s as [|c s IH]; intros part Hs; cbn.
  - by intros ->%list_elem_of_singleton.
  - cbn in Hs. apply andb_true_iff in Hs as [Hc Hs].
    destruct (Ascii.eqb c sep).
    + intros [->|H]%elem_of_cons; [done|]. by apply IH.
    + destruct (str.split sep s) as [|q qs] eqn:E; [by destruct (split_not_nil sep s)|].
      intros [->|H]%elem_of_cons.
      * cbn. rewrite Hc. apply IH; [done|]. by left.
      * apply IH; [done|]. by right.
Qed.

(** The characters of the captured texts are those their groups can read. *)
Lemma run_groups_alphabet (f : string -> ascii -> bool) r : forall pre s g t g' s',
  groups_read_only f r = true ->
  (forall name v, g !! name = Some v -> string_forallb (f name) v = true) ->
  (t, g', s') ∈ run r pre s g ->
  forall name v, g' !! name = Some v -> string_forallb (f name) v = true.
Proof.
  induction r as [| | |c|items|r1 IH1 r2 IH2|r1 IH1 r2 IH2|r IH|name r IH];
    intros pre s g t g' s'; cbn.
  - intros _ Hg H. by in_single H.
  - intros _ Hg. destruct pre; [|by intros ?%elem_of_nil]. intros H. by in_single H.
  - intros _ Hg. destruct s as [|c [|d s]]; try (by intros ?%elem_of_nil).
    + intros H. by in_single H.
    + destruct (Ascii.eqb c newline); [|by intros ?%elem_of_nil]. intros H. by in_single H.
  - intros _ Hg. destruct s as [|d s]; [by intros ?%elem_of_nil|].
    destruct (Ascii.eqb d c); [|by intros ?%elem_of_nil]. intros H. by in_single H.
  - intros _ Hg. destruct s as [|d s]; [by intros ?%elem_of_nil|].
    destruct (existsb (in_item d) items); [|by intros ?%elem_of_nil].
    intros H. by in_single H.
  - intros [H1 H2]%andb_true_iff Hg H. in_bind H. in_bind H. in_single H. eauto.
  - intros [H1 H2]%andb_true_iff Hg. rewrite elem_of_app. intros [H|H]; eauto.
  - intros Hr Hg.
    apply (star_iter_inv
             (fun g => forall name v, g !! name = Some v -> string_forallb (f name) v = true));
      eauto.
  - intros [Hn Hr]%andb_true_iff Hg H. in_bind H. in_single H.
    intros n v. rewrite lookup_insert. case_decide as Hname.
    + intros [= <-]. subst n. by eapply run_text.
    + eapply IH; eauto.
Qed.

End CharacterFacts.

Section AlphabetFacts.

Lemma semver_groups_read_only : groups_read_only group_alphabet semver_pattern = true.
Proof. vm_compute. reflexivity. Qed.

(** The characters of the groups of a match of the pattern of the script,
    for an input of code points 0..255. *)
Lemma groups_alphabet (s : string) (m : match_object) (name v : string) :
  re.match_ semver_pattern s = Some m ->
  groupdict m !! name = Some (Some v) ->
  v <> "" /\ string_forallb (group_alphabet name) v = true.
Proof.
  intros Hm Hd. split; [by apply (semver_group_nonempty s m name)|].
  pose proof Hm as [Hp (t & s' & Hrun)]%match_run.
  eapply (run_groups_alphabet group_alphabet) in Hrun;
    [exact Hrun|exact semver_groups_read_only|by intros ? ?; rewrite lookup_empty|].
  unfold groupdict in Hd. apply elem_of_list_to_map_2 in Hd.
  by apply list_elem_of_fmap in Hd as (n & [= -> Hv] & _).
Qed.

(** X8. On the inputs of the embedding, the texts of code points 0..255:
    whenever the pattern matches, the three numeric components are
    non-empty texts of ASCII digits, and the prerelease and the build
    metadata, when present, are non-empty texts of ASCII letters, digits,
    hyphens and dots. *)
Theorem matched_groups_alphabet (s : string) (m : match_object) (name v : string) :
  re.match_ semver_pattern s = Some m ->
  groupdict m !! name = Some (Some v) ->
  v <> "" /\ string_forallb (group_alphabet name) v = true.
Proof. exact (groups_alphabet s m name v). Qed.

Lemma matched_groups_alphabet_witness :
  "14" <> "" /\ string_forallb (group_alphabet "minor") "14" = true.
Proof.
  apply (matched_groups_alphabet "v0.14.0-beta.1"
           (MatchObject semver_pattern
              (<["prerelease" := "beta.1"]>
                 (<["patch" := "0"]> (<["minor" := "14"]> (<["major" := "0"]> ∅)))))
           "minor" "14"); vm_compute; reflexivity.
Defined.

Lemma ident_or_dot_pep440 (c : ascii) :
  is_ident_char c || Ascii.eqb c "." = true -> pep440_char c = true.
Proof. unfold pep440_char. intros ->. done. Qed.

Lemma digit_pep440 (c : ascii) : is_digit c = true -> pep440_char c = true.
Proof. unfold pep440_char, is_ident_char. by intros ->. Qed.

Lemma segments_alphabet (d : gmap string (option string)) (a b : string) :
  (forall p, d !! "prerelease" = Some (Some p) ->
             string_forallb (fun c => is_ident_char c || Ascii.eqb c ".") p = true) ->
  _get_prerelease_and_dev_segment d = Ok (a, b) ->
  string_forallb pep440_char a = true /\ string_forallb pep440_char b = true.
Proof.
  intros Hp H.
  destruct (d !! "prerelease") as [[[|c p]|]|] eqn:Hd;
    try (by unfold _get_prerelease_and_dev_segment, dict_get in H; rewrite Hd in H;
         injection H as <- <-).
  specialize (Hp _ eq_refl).
  apply (string_forallb_impl _ pep440_char) in Hp; [|exact ident_or_dot_pep440].
  rewrite (segments_cases d (String c p)) in H by done.
  assert (forall part, part ∈ str.split "." (String c p) ->
            string_forallb pep440_char part = true) as Hparts
    by (intros part; by apply split_forallb).
  destruct (str.split "." (String c p)) as [|cycle [|part1 [|part2 [|part3 rest]]]];
    try done.
  - assert (string_forallb pep440_char part1 = true) as H1
      by (apply Hparts; repeat constructor).
    destruct (prerelease_cycle_to_short_name !! cycle) as [short|] eqn:Hc.
    + injection H as <- <-. split; [|done]. rewrite string_forallb_append, H1.
      by apply short_name_cases in Hc as [[_ ->]|[[_ ->]|[_ ->]]].
    + destruct (String.eqb cycle "dev"); [|done]. injection H as <- <-.
      split; [done|]. by rewrite string_forallb_append, H1.
  - assert (string_forallb pep440_char part1 = true) as H1
      by (apply Hparts; repeat constructor).
    assert (string_forallb pep440_char part2 = true) as H2
      by (apply Hparts; repeat constructor).
    destruct (prerelease_cycle_to_short_name !! cycle) as [short|] eqn:Hc; [|done].
    injection H as <- <-. rewrite !string_forallb_append, H1, H2.
    by apply short_name_cases in Hc as [[_ ->]|[[_ ->]|[_ ->]]].
Qed.

Lemma label_alphabet (d : gmap string (option string)) :
  (forall bm, d !! "buildmetadata" = Some (Some bm) ->
              string_forallb (fun c => is_ident_char c || Ascii.eqb c ".") bm = true) ->
  string_forallb pep440_char (_get_local_version_label d) = true.
Proof.
  intros Hbm. pose proof (label_shape d) as H. unfold dict_get in H.
  destruct (d !! "buildmetadata") as [[[|c bm]|]|] eqn:Hd; try (by rewrite H).
  destruct H as (h & rest & Hs & _ & _ & -> & _).
  specialize (Hbm _ eq_refl). rewrite Hs, string_forallb_append in Hbm.
  apply andb_true_iff in Hbm as [Hh _].
  apply (string_forallb_impl _ pep440_char) in Hh; [|exact ident_or_dot_pep440].
  by rewrite string_forallb_append, Hh.
Qed.

(** The characters of a converted version, for an input of code points
    0..255. *)
Lemma converted_alphabet (s out : string) :
  create_pep440_version s = Ok out ->
  (exists c rest, out = String c rest /\ is_digit c = true) /\
  string_forallb pep440_char out = true.
Proof.
  intros H.
  destruct (str.contains "unstaged" s || str.contains "uncommitted" s) eqn:Hu.
  { by rewrite (create_unstable s Hu) in H. }
  destruct (re.match_ semver_pattern s) as [m|] eqn:Hm.
  2: { unfold create_pep440_version in H. by rewrite Hu, Hm in H. }
  destruct (semver_release_present s m Hm) as (major & minor & patch & Hmaj & Hmin & Hpat).
  rewrite (create_matched s m major minor patch) in H by done.
  destruct (_get_prerelease_and_dev_segment (groupdict m)) as [[a b]|e] eqn:Hseg; [|done].
  injection H as <-.
  destruct (groups_alphabet s m "major" major Hm Hmaj) as [Hne1 Hc1].
  destruct (groups_alphabet s m "minor" minor Hm Hmin) as [_ Hc2].
  destruct (groups_alphabet s m "patch" patch Hm Hpat) as [_ Hc3].
  change (group_alphabet "major") with is_digit in Hc1.
  change (group_alphabet "minor") with is_digit in Hc2.
  change (group_alphabet "patch") with is_digit in Hc3.
  split.
  - destruct major as [|c major]; [done|]. exists c. eexists. split; [by rewrite append_cons|].
    cbn in Hc1. by apply andb_true_iff in Hc1 as [-> _].
  - apply (string_forallb_impl _ pep440_char) in Hc1, Hc2, Hc3; try exact digit_pep440.
    apply segments_alphabet in Hseg as [Ha Hb].
    + rewrite !string_forallb_append, Hc1, Hc2, Hc3, Ha, Hb, label_alphabet; [done|].
      intros bm Hbm. by apply (groups_alphabet s m "buildmetadata" bm Hm Hbm).
    + intros p Hp. by apply (groups_alphabet s m "prerelease" p Hm Hp).
Qed.

(** X9. On the inputs of the embedding, the texts of code points 0..255:
    a converted version starts with an ASCII digit and is made of ASCII
    letters, digits, dots, hyphens and "+" only. *)
Theorem converted_version_alphabet (s out : string) :
  create_pep440_version s = Ok out ->
  (exists c rest, out = String c rest /\ is_digit c = true) /\
  string_forallb pep440_char out = true.
Proof. exact (converted_alphabet s out). Qed.

Lemma converted_version_alphabet_witness :
  (exists c rest, "0.14.0a1.dev2+f0e563586" = String c rest /\ is_digit c = true) /\
  string_forallb pep440_char "0.14.0a1.dev2+f0e563586" = true.
Proof.
  apply (converted_version_alphabet "v0.14.0-alpha.1.2+f0e563586.feature-MLB").
  vm_compute. reflexivity.
Defined.

(** X10. A converted version is never accepted as an input: converting
    it again fails, because it does not start with "v". *)
Theorem converted_version_rejected (s out : string) :
  create_pep440_version s = Ok out ->
  re.match_ semver_pattern out = None /\
  exists e, create_pep440_version out = Raise e.
Proof.
  intros H. apply converted_alphabet in H as [(c & rest & -> & Hc) _].
  assert (re.match_ semver_pattern (String c rest) = None) as Hm.
  { unfold match_. cbn. destruct (Ascii.eqb_spec c "v") as [->|]; [done|done]. }
  split; [done|]. unfold create_pep440_version. rewrite Hm.
  destruct (_ || _); by eexists.
Qed.

Lemma converted_version_rejected_witness :
  re.match_ semver_pattern "0.14.0a1" = None /\
  exists e, create_pep440_version "0.14.0a1" = Raise e.
Proof.
  apply (converted_version_rejected "v0.14.0-alpha.1"). vm_compute. reflexivity.
Defined.

End AlphabetFacts.

Section FirstMatch.

Implicit Types (r : regex) (g : gmap string string) (pre s t : string).

Lemma head_bind {A B : Type} (k : A -> list B) (l : list A) (x : A) (y : B) :
  head l = Some x -> head (k x) = Some y -> head (l ≫= k) = Some y.
Proof.
  destruct l as [|x' l]; [done|]. intros [= ->]. cbn.
  by destruct (k x).
Qed.

Lemma head_app_l {A : Type} (l1 l2 : list A) (x : A) :
  head l1 = Some x -> head (l1 ++ l2) = Some x.
Proof. by destruct l1. Qed.

Lemma first_seq r1 r2 pre s g t1 g1 s1 t2 g2 s2 :
  head (run r1 pre s g) = Some (t1, g1, s1) ->
  head (run r2 (pre +:+ t1) s1 g1) = Some (t2, g2, s2) ->
  head (run (Seq r1 r2) pre s g) = Some (t1 +:+ t2, g2, s2).
Proof.
  intros H1 H2. cbn. eapply head_bind; [exact H1|]. cbn.
  eapply head_bind; [exact H2|]. done.
Qed.

Lemma first_alt_l r1 r2 pre s g x :
  head (run r1 pre s g) = Some x -> head (run (Alt r1 r2) pre s g) = Some x.
Proof. cbn. by destruct (run r1 pre s g). Qed.

Lemma first_alt_r r1 r2 pre s g :
  run r1 pre s g = [] -> run (Alt r1 r2) pre s g = run r2 pre s g.
Proof. cbn. by intros ->. Qed.

Lemma first_group name r pre s g t g1 s1 :
  head (run r pre s g) = Some (t, g1, s1) ->
  head (run (Group name r) pre s g) = Some (t, <[name := t]> g1, s1).
Proof. intros H. cbn. eapply head_bind; [exact H|]. done. Qed.

Lemma first_opt_skip r pre s g :
  run r pre s g = [] -> run (Opt r) pre s g = [("", g, s)].
Proof. unfold Opt. cbn. by intros ->. Qed.

Lemma first_star_stop r pre s g :
  run r pre s g = [] -> run (Star r) pre s g = [("", g, s)].
Proof.
  intros H. cbn. destruct (String.length s); [done|]. cbn. by rewrite H.
Qed.

Lemma first_star_step r pre s g c t1 g1 s1 t2 g2 s2 :
  head (run r pre s g) = Some (String c t1, g1, s1) ->
  head (run (Star r) (pre +:+ String c t1) s1 g1) = Some (t2, g2, s2) ->
  head (run (Star r) pre s g) = Some (String c t1 +:+ t2, g2, s2).
Proof.
  intros H1 H2.
  assert (s = String c t1 +:+ s1) as Hs.
  { destruct (run r pre s g) as [|x l] eqn:E; [done|]. injection H1 as ->.
    apply (run_append r pre s g (String c t1) g1 s1). rewrite E. left. }
  rewrite (run_star_bound r (String.length t1 + String.length s1) _ s1) in H2 by lia.
  cbn [run]. subst s. rewrite append_cons. cbn [String.length]. rewrite length_append.
  rewrite <- append_cons. cbn [star_iter]. apply head_app_l.
  eapply head_bind; [exact H1|]. cbn beta iota.
  eapply head_bind; [exact H2|]. done.
Qed.

Lemma run_lit_hit c pre s g : run (Lit c) pre (String c s) g = [(String c "", g, s)].
Proof. cbn. by rewrite Ascii.eqb_refl. Qed.

Lemma run_lit_miss c pre s g :
  starts_outside (Ascii.eqb c) s = true -> run (Lit c) pre s g = [].
Proof.
  destruct s as [|d s]; [done|]. cbn. intros H%negb_true_iff.
  rewrite Ascii.eqb_sym. by rewrite H.
Qed.

Lemma run_class_hit items c pre s g :
  in_class items c = true -> run (Class items) pre (String c s) g = [(String c "", g, s)].
Proof. unfold in_class. cbn. by intros ->. Qed.

Lemma run_class_miss items pre s g :
  starts_outside (in_class items) s = true -> run (Class items) pre s g = [].
Proof.
  destruct s as [|d s]; [done|]. unfold in_class. cbn. by intros ->%negb_true_iff.
Qed.

(** A repetition of a class reads first the longest run of characters of
    the class. *)
Lemma first_star_class items t : forall pre rest g,
  string_forallb (in_class items) t = true ->
  starts_outside (in_class items) rest = true ->
  head (run (Star (Class items)) pre (t +:+ rest) g) = Some (t, g, rest).
Proof.
  induction t as [|c t IH]; intros pre rest g Ht Hrest.
  - rewrite append_nil_l, first_star_stop; [done|]. by apply run_class_miss.
  - cbn in Ht. apply andb_true_iff in Ht as [Hc Ht]. rewrite append_cons.
    refine (first_star_step (Class items) pre _ g c "" g (t +:+ rest) t g rest _ _).
    + by rewrite run_class_hit.
    + by apply IH.
Qed.

Lemma run_seq_miss r1 r2 pre s g :
  run r1 pre s g = [] -> run (Seq r1 r2) pre s g = [].
Proof. cbn. by intros ->. Qed.

Lemma first_plus_class items c t pre rest g :
  string_forallb (in_class items) (String c t) = true ->
  starts_outside (in_class items) rest = true ->
  head (run (Plus (Class items)) pre (String c t +:+ rest) g) = Some (String c t, g, rest).
Proof.
  intros [Hc Ht]%andb_true_iff Hrest. rewrite append_cons. unfold Plus.
  refine (first_seq _ _ pre _ g (String c "") g (t +:+ rest) t g rest _ _).
  - by rewrite run_class_hit.
  - by apply first_star_class.
Qed.

Lemma in_class_digit c : in_class [CDigit] c = is_digit c.
Proof. unfold in_class. cbn. apply orb_false_r. Qed.

Lemma in_class_nonzero c : in_class [CRange "1" "9"] c = is_digit c && negb (Ascii.eqb c "0").
Proof. by destruct c as [[] [] [] [] [] [] [] []]. Qed.

Lemma in_class_ident c :
  in_class [CRange "0" "9"; CRange "a" "z"; CRange "A" "Z"; CChar "-"] c = is_ident_char c.
Proof. by destruct c as [[] [] [] [] [] [] [] []]. Qed.

Lemma in_class_alpha c :
  in_class [CRange "a" "z"; CRange "A" "Z"; CChar "-"] c = is_ident_char c && negb (is_digit c).
Proof. by destruct c as [[] [] [] [] [] [] [] []]. Qed.

Lemma forallb_class_digit t :
  string_forallb is_digit t = true -> string_forallb (in_class [CDigit]) t = true.
Proof. apply string_forallb_impl. intros c. by rewrite in_class_digit. Qed.

Lemma forallb_class_ident t :
  string_forallb is_ident_char t = true ->
  string_forallb (in_class [CRange "0" "9"; CRange "a" "z"; CRange "A" "Z"; CChar "-"]) t
  = true.
Proof. apply string_forallb_impl. intros c. by rewrite in_class_ident. Qed.

Lemma outside_class_digit rest :
  starts_outside is_digit rest = true -> starts_outside (in_class [CDigit]) rest = true.
Proof. destruct rest as [|c rest]; [done|]. unfold starts_outside. by rewrite in_class_digit. Qed.

Lemma outside_class_ident rest :
  starts_outside is_ident_char rest = true ->
  starts_outside (in_class [CRange "0" "9"; CRange "a" "z"; CRange "A" "Z"; CChar "-"]) rest
  = true.
Proof. destruct rest as [|c rest]; [done|]. unfold starts_outside. by rewrite in_class_ident. Qed.

Lemma outside_ident_digit rest :
  starts_outside is_ident_char rest = true -> starts_outside is_digit rest = true.
Proof.
  destruct rest as [|c rest]; [done|]. cbn. unfold is_ident_char.
  by destruct (is_digit c).
Qed.

(** The numeric pattern reads a numeric component that no digit follows. *)
Lemma first_nonzero c t pre rest g :
  Ascii.eqb c "0" = false -> is_digit c = true -> string_forallb is_digit t = true ->
  starts_outside is_digit rest = true ->
  head (run (Seq (Class [CRange "1" "9"]) (Star (Class [CDigit]))) pre
          (String c t +:+ rest) g)
  = Some (String c t, g, rest).
Proof.
  intros H0 Hc Ht Hrest. rewrite append_cons.
  refine (first_seq _ _ pre _ g (String c "") g (t +:+ rest) t g rest _ _).
  - rewrite run_class_hit; [done|]. by rewrite in_class_nonzero, Hc, H0.
  - apply first_star_class; [by apply forallb_class_digit|by apply outside_class_digit].
Qed.

Lemma first_numeric a pre rest g :
  is_numeric a = true -> starts_outside is_digit rest = true ->
  head (run numeric pre (a +:+ rest) g) = Some (a, g, rest).
Proof.
  intros Ha Hrest. destruct a as [|c t]; [done|]. cbn in Ha. unfold numeric.
  destruct (Ascii.eqb_spec c "0") as [->|Hne].
  - destruct t; [|done]. apply first_alt_l. by rewrite append_cons, run_lit_hit.
  - apply andb_true_iff in Ha as [Hc Ht]. apply Ascii.eqb_neq in Hne.
    rewrite first_alt_r.
    + by apply first_nonzero.
    + rewrite append_cons. apply run_lit_miss. unfold starts_outside.
      by rewrite Ascii.eqb_sym, Hne.
Qed.

(** The pattern of a prerelease identifier reads a simple identifier that
    no identifier character follows. *)
Lemma first_prerelease_ident id pre rest g :
  is_simple_ident id = true -> starts_outside is_ident_char rest = true ->
  head (run prerelease_ident pre (id +:+ rest) g) = Some (id, g, rest).
Proof.
  intros Hid Hrest. unfold is_simple_ident in Hid. unfold prerelease_ident.
  destruct id as [|c t]; [done|]. cbn [is_numeric] in Hid.
  destruct (Ascii.eqb_spec c "0") as [->|Hne].
  - destruct t as [|d t].
    + apply first_alt_l. by rewrite append_cons, run_lit_hit.
    + by cbn in Hid.
  - apply Ascii.eqb_neq in Hne.
    rewrite first_alt_r
      by (rewrite append_cons; apply run_lit_miss; unfold starts_outside;
          by rewrite Ascii.eqb_sym, Hne).
    destruct (is_digit c) eqn:Hc.
    + cbn in Hid. rewrite andb_false_r, orb_false_r in Hid.
      apply first_alt_l. apply first_nonzero; try done. by apply outside_ident_digit.
    + cbn in Hid. rewrite andb_true_r in Hid. apply andb_true_iff in Hid as [Hc' Ht].
      rewrite first_alt_r.
      2: { apply run_seq_miss. rewrite append_cons. apply run_class_miss.
           unfold starts_outside. by rewrite in_class_nonzero, Hc. }
      rewrite append_cons.
      refine (first_seq _ _ pre _ g "" g _ (String c t) g rest _ _).
      * rewrite first_star_stop; [done|]. apply run_class_miss.
        unfold starts_outside. by rewrite in_class_digit, Hc.
      * refine (first_seq _ _ _ _ g (String c "") g (t +:+ rest) t g rest _ _).
        -- rewrite run_class_hit; [done|]. by rewrite in_class_alpha, Hc', Hc.
        -- apply first_star_class; [by apply forallb_class_ident|by apply outside_class_ident].
Qed.

(** A repetition of dot and identifier reads a whole list of identifiers
    that neither a dot nor an identifier character follows. *)
Lemma first_dotted (X : regex) (ids : list string) :
  (forall id, id ∈ ids -> forall pre rest g,
     starts_outside is_ident_char rest = true ->
     head (run X pre (id +:+ rest) g) = Some (id, g, rest)) ->
  forall pre rest g,
    starts_outside (fun c => is_ident_char c || Ascii.eqb c ".") rest = true ->
    head (run (Star (Seq (Lit ".") X)) pre (dotted ids +:+ rest) g)
    = Some (dotted ids, g, rest).
Proof.
  induction ids as [|id ids IH]; intros HX pre rest g Hrest.
  - cbn [dotted foldr]. rewrite append_nil_l, first_star_stop; [done|].
    apply run_seq_miss, run_lit_miss. destruct rest as [|c rest]; [done|].
    unfold starts_outside in *. apply negb_true_iff, orb_false_iff in Hrest as [_ Hc].
    by rewrite Ascii.eqb_sym, Hc.
  - cbn [dotted foldr]. fold (dotted ids).
    rewrite !append_assoc, append_cons, append_nil_l.
    refine (first_star_step _ pre _ g "." id g (dotted ids +:+ rest) (dotted ids) g rest _ _).
    + refine (first_seq _ _ pre _ g "." g _ id g _ _ _).
      * by rewrite run_lit_hit.
      * apply HX; [by left|]. destruct ids as [|id' ids]; [|done].
        rewrite append_nil_l. destruct rest as [|c rest]; [done|].
        unfold starts_outside in *. apply negb_true_iff, orb_false_iff in Hrest as [Hc _].
        by rewrite Hc.
    + apply IH; [|done]. intros id' Hid'. apply HX. by right.
Qed.

(** An optional marked list of identifiers: nothing is read when the
    text does not start with the mark. *)
Lemma first_marked_skip (mark : ascii) (name : string) (X Y : regex) pre rest g :
  starts_outside (Ascii.eqb mark) rest = true ->
  head (run (Opt (Seq (Lit mark) (Group name (Seq X (Star (Seq (Lit ".") Y)))))) pre rest g)
  = Some ("", g, rest).
Proof.
  intros H. rewrite first_opt_skip; [done|]. by apply run_seq_miss, run_lit_miss.
Qed.

Lemma first_marked_read (mark : ascii) (name : string) (X Y : regex) id ids pre rest g :
  (forall pre rest g, starts_outside is_ident_char rest = true ->
     head (run X pre (id +:+ rest) g) = Some (id, g, rest)) ->
  (forall id', id' ∈ ids -> forall pre rest g,
     starts_outside is_ident_char rest = true ->
     head (run Y pre (id' +:+ rest) g) = Some (id', g, rest)) ->
  starts_outside (fun c => is_ident_char c || Ascii.eqb c ".") rest = true ->
  head (run (Opt (Seq (Lit mark) (Group name (Seq X (Star (Seq (Lit ".") Y))))))
          pre (String mark (id +:+ dotted ids) +:+ rest) g)
  = Some (String mark (id +:+ dotted ids), <[name := id +:+ dotted ids]> g, rest).
Proof.
  intros HX HY Hrest. unfold Opt. apply first_alt_l.
  rewrite append_cons, append_assoc.
  refine (first_seq _ _ pre _ g (String mark "") g _ (id +:+ dotted ids) _ rest _ _).
  { by rewrite run_lit_hit. }
  apply first_group.
  refine (first_seq _ _ _ _ g id g (dotted ids +:+ rest) (dotted ids) g rest _ _).
  - apply HX. destruct ids as [|id' ids].
    + rewrite append_nil_l. destruct rest as [|c rest]; [done|].
      unfold starts_outside in *. apply negb_true_iff, orb_false_iff in Hrest as [Hc _].
      by rewrite Hc.
    + done.
  - by apply first_dotted.
Qed.

Lemma append_char (c : ascii) (s : string) : String c "" +:+ s = String c s.
Proof. reflexivity. Qed.

Lemma marked_outside_digit (mark : ascii) (ids : list string) (rest : string) :
  is_digit mark = false -> starts_outside is_digit rest = true ->
  starts_outside is_digit (marked (String mark "") ids +:+ rest) = true.
Proof.
  intros Hm Hrest. destruct ids as [|id ids]; [done|]. cbn [marked].
  rewrite !append_cons. cbn. by rewrite Hm.
Qed.

Lemma first_prerelease (prerelease : list string) pre rest g :
  Forall (fun id => is_simple_ident id = true) prerelease ->
  starts_outside (fun c => is_ident_char c || Ascii.eqb c "." || Ascii.eqb c "-") rest = true ->
  head (run (Opt (Seq (Lit "-")
                   (Group "prerelease"
                      (Seq prerelease_ident (Star (Seq (Lit ".") prerelease_ident))))))
          pre (marked "-" prerelease +:+ rest) g)
  = Some (marked "-" prerelease, with_group "prerelease" prerelease g, rest).
Proof.
  intros Hids Hrest.
  assert (starts_outside (fun c => is_ident_char c || Ascii.eqb c ".") rest = true
          /\ starts_outside (Ascii.eqb "-") rest = true) as [H1 H2].
  { destruct rest as [|c rest]; [done|]. unfold starts_outside in *.
    apply negb_true_iff, orb_false_iff in Hrest as [-> Hc].
    by rewrite Ascii.eqb_sym, Hc. }
  destruct prerelease as [|id ids].
  - cbn [marked with_group]. rewrite append_nil_l. by apply first_marked_skip.
  - apply Forall_cons in Hids as [Hid Hids]. cbn [marked with_group].
    rewrite append_cons, append_nil_l.
    apply first_marked_read; [| |done].
    + intros. by apply first_prerelease_ident.
    + intros id' Hid' pre' rest' g' Hrest'. apply first_prerelease_ident; [|done].
      rewrite Forall_forall in Hids. by apply Hids.
Qed.

Lemma first_build_ident id pre rest g :
  is_build_ident id = true -> starts_outside is_ident_char rest = true ->
  head (run (Plus ident_char) pre (id +:+ rest) g) = Some (id, g, rest).
Proof.
  intros Hid Hrest. destruct id as [|c t]; [done|]. unfold ident_char.
  apply first_plus_class; [by apply forallb_class_ident|by apply outside_class_ident].
Qed.

Lemma first_build (build : list string) pre g :
  Forall (fun id => is_build_ident id = true) build ->
  head (run (Opt (Seq (Lit "+")
                   (Group "buildmetadata"
                      (Seq (Plus ident_char) (Star (Seq (Lit ".") (Plus ident_char)))))))
          pre (marked "+" build) g)
  = Some (marked "+" build, with_group "buildmetadata" build g, "").
Proof.
  intros Hids. rewrite <- (append_nil_r (marked "+" build)) at 1.
  destruct build as [|id ids].
  - cbn [marked with_group]. by apply first_marked_skip.
  - apply Forall_cons in Hids as [Hid Hids]. cbn [marked with_group].
    rewrite append_cons, append_nil_l.
    apply first_marked_read; [| |done].
    + intros. by apply first_build_ident.
    + intros id' Hid' pre' rest' g' Hrest'. apply first_build_ident; [|done].
      rewrite Forall_forall in Hids. by apply Hids.
Qed.

Lemma marked_plus_outside (build : list string) :
  starts_outside (fun c => is_ident_char c || Ascii.eqb c "." || Ascii.eqb c "-")
    (marked "+" build) = true.
Proof. by destruct build. Qed.

(** The pattern matches every rendered semtag version and the match
    gives back its components. *)
Lemma first_semver (major minor patch : string) (prerelease build : list string) :
  is_numeric major = true -> is_numeric minor = true -> is_numeric patch = true ->
  Forall (fun id => is_simple_ident id = true) prerelease ->
  Forall (fun id => is_build_ident id = true) build ->
  exists t,
    head (run semver_pattern "" (render major minor patch prerelease build) ∅)
    = Some (t, rendered_groups major minor patch prerelease build, "").
Proof.
  intros Hmaj Hmin Hpat Hpre Hbuild. eexists. unfold semver_pattern, render.
  eapply first_seq; [done|].
  rewrite append_char.
  eapply first_seq; [by rewrite run_lit_hit|].
  eapply first_seq; [by apply first_group, first_numeric|].
  rewrite append_char.
  eapply first_seq; [by rewrite run_lit_hit|].
  eapply first_seq; [by apply first_group, first_numeric|].
  rewrite append_char.
  eapply first_seq; [by rewrite run_lit_hit|].
  eapply first_seq.
  { apply first_group, first_numeric; [done|].
    apply (marked_outside_digit "-"); [done|]. by destruct build. }
  eapply first_seq.
  { apply first_prerelease; [done|]. apply marked_plus_outside. }
  eapply first_seq; [by apply first_build|].
  done.
Qed.

End FirstMatch.

Section RenderedVersions.

Lemma contains_without_first (needle s : string) (c0 : ascii) (rest : string) :
  needle = String c0 rest ->
  string_forallb (fun c => negb (Ascii.eqb c c0)) s = true ->
  str.contains needle s = false.
Proof.
  intros -> Hs. induction s as [|a s IH]; [done|].
  cbn in Hs. apply andb_true_iff in Hs as [Ha Hs]. apply negb_true_iff in Ha.
  cbn. rewrite Ascii.eqb_sym, Ha. cbn. by apply IH.
Qed.

Lemma digit_not_letter (c0 c : ascii) :
  is_digit c0 = false -> is_digit c = true -> negb (Ascii.eqb c c0) = true.
Proof.
  intros H0 Hc. apply negb_true_iff, Ascii.eqb_neq. intros ->. congruence.
Qed.

Lemma numeric_digits (a : string) : is_numeric a = true -> string_forallb is_digit a = true.
Proof.
  destruct a as [|c t]; [done|]. cbn.
  destruct (Ascii.eqb_spec c "0") as [->|_]; [by destruct t|done].
Qed.

Lemma numeric_without (c0 : ascii) (a : string) :
  is_digit c0 = false -> is_numeric a = true ->
  string_forallb (fun c => negb (Ascii.eqb c c0)) a = true.
Proof.
  intros H0 Ha%numeric_digits. revert Ha. apply string_forallb_impl.
  intros c. by apply digit_not_letter.
Qed.

Lemma numeric_simple (a : string) : is_numeric a = true -> is_simple_ident a = true.
Proof. unfold is_simple_ident. by intros ->. Qed.

Lemma numeric_no_dot (a : string) : is_numeric a = true -> str.contains "." a = false.
Proof.
  intros Ha. apply (contains_without_first "." a "." ""); [done|]. by apply numeric_without.
Qed.

(** The entries of [groupdict] for the match of a rendered version. *)
Lemma rendered_groupdict (major minor patch : string) (prerelease build : list string) :
  let d := groupdict (MatchObject semver_pattern
                        (rendered_groups major minor patch prerelease build)) in
  d !! "major" = Some (Some major) /\
  d !! "minor" = Some (Some minor) /\
  d !! "patch" = Some (Some patch) /\
  d !! "prerelease" = Some (joined prerelease) /\
  d !! "buildmetadata" = Some (joined build).
Proof.
  cbn zeta. rewrite !groupdict_lookup by (cbn; repeat constructor). cbn [groups].
  unfold rendered_groups, with_group, joined.
  destruct prerelease as [|p ps], build as [|b bs];
    repeat split; f_equal;
    rewrite ?lookup_insert_eq; try done;
    rewrite ?lookup_insert_ne by done; rewrite ?lookup_insert_eq; try done;
    rewrite ?lookup_insert_ne by done; rewrite ?lookup_insert_eq; try done;
    rewrite ?lookup_insert_ne by done; rewrite ?lookup_insert_eq; try done;
    rewrite ?lookup_insert_ne by done; rewrite ?lookup_insert_eq; try done.
Qed.

Lemma rendered_match (major minor patch : string) (prerelease build : list string) :
  is_numeric major = true -> is_numeric minor = true -> is_numeric patch = true ->
  Forall (fun id => is_simple_ident id = true) prerelease ->
  Forall (fun id => is_build_ident id = true) build ->
  re.match_ semver_pattern (render major minor patch prerelease build)
  = Some (MatchObject semver_pattern (rendered_groups major minor patch prerelease build)).
Proof.
  intros Hmaj Hmin Hpat Hpre Hbuild.
  destruct (first_semver major minor patch prerelease build) as [t Hrun]; try done.
  unfold match_.
  by destruct (run semver_pattern "" (render major minor patch prerelease build) ∅)
    as [|x l]; [|injection Hrun as ->].
Qed.

(** X11. The pattern accepts every semtag version put together from
    numeric components, simple prerelease identifiers and build
    identifiers, and the match gives the components back. *)
Theorem semver_match_complete (major minor patch : string) (prerelease build : list string) :
  is_numeric major = true -> is_numeric minor = true -> is_numeric patch = true ->
  Forall (fun id => is_simple_ident id = true) prerelease ->
  Forall (fun id => is_build_ident id = true) build ->
  exists m,
    re.match_ semver_pattern (render major minor patch prerelease build) = Some m /\
    groupdict m !! "major" = Some (Some major) /\
    groupdict m !! "minor" = Some (Some minor) /\
    groupdict m !! "patch" = Some (Some patch) /\
    groupdict m !! "prerelease" = Some (joined prerelease) /\
    groupdict m !! "buildmetadata" = Some (joined build).
Proof.
  intros Hmaj Hmin Hpat Hpre Hbuild.
  exists (MatchObject semver_pattern (rendered_groups major minor patch prerelease build)).
  split; [by apply rendered_match|apply rendered_groupdict].
Qed.

Lemma semver_match_complete_witness :
  exists m,
    re.match_ semver_pattern "v0.14.0-alpha.1.2+f0e563586.feature-MLB" = Some m /\
    groupdict m !! "major" = Some (Some "0") /\
    groupdict m !! "minor" = Some (Some "14") /\
    groupdict m !! "patch" = Some (Some "0") /\
    groupdict m !! "prerelease" = Some (Some "alpha.1.2") /\
    groupdict m !! "buildmetadata" = Some (Some "f0e563586.feature-MLB").
Proof.
  apply (semver_match_complete "0" "14" "0" ["alpha"; "1"; "2"] ["f0e563586"; "feature-MLB"]);
    try reflexivity; by repeat constructor.
Defined.

Lemma label_absent (d : gmap string (option string)) :
  d !! "buildmetadata" = Some None -> _get_local_version_label d = "".
Proof. intros H. unfold _get_local_version_label, dict_get. by rewrite H. Qed.

(** The result for a rendered version that holds no marker. *)
Lemma create_rendered (major minor patch : string) (prerelease build : list string) :
  is_numeric major = true -> is_numeric minor = true -> is_numeric patch = true ->
  Forall (fun id => is_simple_ident id = true) prerelease ->
  Forall (fun id => is_build_ident id = true) build ->
  let s := render major minor patch prerelease build in
  let d := groupdict (MatchObject semver_pattern
                        (rendered_groups major minor patch prerelease build)) in
  str.contains "unstaged" s || str.contains "uncommitted" s = false ->
  create_pep440_version s =
    match _get_prerelease_and_dev_segment d with
    | Ok (prerelease_segment, dev_segment) =>
        Ok (major +:+ "." +:+ minor +:+ "." +:+ patch +:+ prerelease_segment
            +:+ dev_segment +:+ _get_local_version_label d)
    | Raise e => Raise e
    end.
Proof.
  intros Hmaj Hmin Hpat Hpre Hbuild s d Hu.
  destruct (rendered_groupdict major minor patch prerelease build) as (H1 & H2 & H3 & _).
  apply create_matched; try done. by apply rendered_match.
Qed.

(** A text of numeric components, dots and the marks holds no marker. *)
Lemma numeric_render_unmarked (major minor patch : string) (ids : list string) :
  is_numeric major = true -> is_numeric minor = true -> is_numeric patch = true ->
  Forall (fun id => string_forallb (fun c => negb (Ascii.eqb c "u")) id = true) ids ->
  let s := render major minor patch ids [] in
  str.contains "unstaged" s || str.contains "uncommitted" s = false.
Proof.
  intros Hmaj Hmin Hpat Hids s.
  assert (string_forallb (fun c => negb (Ascii.eqb c "u")) s = true) as Hs.
  { unfold s, render. rewrite !string_forallb_append.
    rewrite (numeric_without "u" major), (numeric_without "u" minor),
      (numeric_without "u" patch) by done.
    cbn [marked string_forallb]. rewrite !andb_true_r. cbn.
    destruct ids as [|id ids]; [done|]. apply Forall_cons in Hids as [Hid Hids].
    cbn [marked]. rewrite !string_forallb_append, Hid. cbn.
    induction Hids as [|id' ids' Hid' _ IH]; [done|].
    cbn [dotted foldr]. fold (dotted ids'). by rewrite !string_forallb_append, Hid', IH. }
  by rewrite (contains_without_first "unstaged" s "u" "nstaged"),
    (contains_without_first "uncommitted" s "u" "ncommitted").
Qed.

Lemma render_release (major minor patch : string) :
  render major minor patch [] [] = "v" +:+ major +:+ "." +:+ minor +:+ "." +:+ patch.
Proof. unfold render. cbn [marked]. by rewrite !append_nil_r. Qed.

(** X12. Every release version [v{major}.{minor}.{patch}] with numeric
    components converts to [{major}.{minor}.{patch}]. *)
Theorem release_converts (major minor patch : string) :
  is_numeric major = true -> is_numeric minor = true -> is_numeric patch = true ->
  create_pep440_version ("v" +:+ major +:+ "." +:+ minor +:+ "." +:+ patch)
  = Ok (major +:+ "." +:+ minor +:+ "." +:+ patch).
Proof.
  intros Hmaj Hmin Hpat. rewrite <- render_release.
  rewrite create_rendered; try done.
  - destruct (rendered_groupdict major minor patch [] []) as (_ & _ & _ & Hp & Hb).
    rewrite segments_absent, label_absent by done. by rewrite !append_nil_r.
  - by apply numeric_render_unmarked.
Qed.

Lemma release_converts_witness :
  create_pep440_version ("v" +:+ "10" +:+ "." +:+ "0" +:+ "." +:+ "427") = Ok "10.0.427".
Proof. apply (release_converts "10" "0" "427"); reflexivity. Defined.

Lemma ident_no_dot (id : string) :
  string_forallb is_ident_char id = true -> str.contains "." id = false.
Proof.
  intros H. apply (contains_without_first "." id "." ""); [done|].
  revert H. apply string_forallb_impl. by intros [[] [] [] [] [] [] [] []].
Qed.

Lemma split_dotted (id : string) (ids : list string) :
  str.contains "." id = false ->
  Forall (fun id' => str.contains "." id' = false) ids ->
  str.split "." (id +:+ dotted ids) = id :: ids.
Proof.
  intros Hid Hids. revert id Hid. induction Hids as [|id' ids Hid' _ IH]; intros id Hid.
  - cbn [dotted foldr]. by rewrite append_nil_r, split_no_sep_id.
  - cbn [dotted foldr]. fold (dotted ids). rewrite append_char.
    by rewrite split_append_sep, IH.
Qed.

Lemma render_prerelease (major minor patch id : string) (ids : list string) :
  render major minor patch (id :: ids) []
  = "v" +:+ major +:+ "." +:+ minor +:+ "." +:+ patch +:+ "-" +:+ id +:+ dotted ids.
Proof. unfold render. cbn [marked]. by rewrite !append_nil_r. Qed.

Lemma dotted_one (n : string) : dotted [n] = "." +:+ n.
Proof. cbn. by rewrite append_nil_r. Qed.

Lemma dotted_two (n k : string) : dotted [n; k] = "." +:+ n +:+ "." +:+ k.
Proof. cbn. by rewrite append_nil_r. Qed.

(** The conversion of a rendered version without build metadata, from
    the segments of its prerelease. *)
Lemma create_rendered_prerelease (major minor patch id : string) (ids : list string)
    (prerelease_segment dev_segment : string) :
  is_numeric major = true -> is_numeric minor = true -> is_numeric patch = true ->
  Forall (fun id => is_simple_ident id = true) (id :: ids) ->
  Forall (fun id => string_forallb (fun c => negb (Ascii.eqb c "u")) id = true) (id :: ids) ->
  Forall (fun id => str.contains "." id = false) (id :: ids) ->
  (forall d, d !! "prerelease" = Some (Some (id +:+ dotted ids)) ->
             str.split "." (id +:+ dotted ids) = id :: ids ->
             _get_prerelease_and_dev_segment d = Ok (prerelease_segment, dev_segment)) ->
  create_pep440_version
    ("v" +:+ major +:+ "." +:+ minor +:+ "." +:+ patch +:+ "-" +:+ id +:+ dotted ids)
  = Ok (major +:+ "." +:+ minor +:+ "." +:+ patch +:+ prerelease_segment +:+ dev_segment).
Proof.
  intros Hmaj Hmin Hpat Hsimple Hu Hdot Hseg. rewrite <- render_prerelease.
  rewrite create_rendered; try done; [|by apply numeric_render_unmarked].
  destruct (rendered_groupdict major minor patch (id :: ids) []) as (_ & _ & _ & Hp & Hb).
  apply Forall_cons in Hdot as [Hdot1 Hdot2].
  rewrite (Hseg _ Hp (split_dotted id ids Hdot1 Hdot2)), label_absent by done.
  by rewrite append_nil_r.
Qed.

(** X13. With numeric components and numeric values, the prereleases
    alpha, beta and rc with one value convert to the short name and the
    value, with two values to the short name, the first value and
    [.dev{second value}], and dev with one value to [.dev{value}]. *)
Theorem numeric_prerelease_converts (major minor patch n k cycle short : string) :
  is_numeric major = true -> is_numeric minor = true -> is_numeric patch = true ->
  is_numeric n = true -> is_numeric k = true ->
  (cycle, short) ∈ [("alpha", "a"); ("beta", "b"); ("rc", "rc")] ->
  create_pep440_version
    ("v" +:+ major +:+ "." +:+ minor +:+ "." +:+ patch +:+ "-" +:+ cycle +:+ "." +:+ n)
  = Ok (major +:+ "." +:+ minor +:+ "." +:+ patch +:+ short +:+ n) /\
  create_pep440_version
    ("v" +:+ major +:+ "." +:+ minor +:+ "." +:+ patch +:+ "-" +:+ cycle +:+ "." +:+ n
     +:+ "." +:+ k)
  = Ok (major +:+ "." +:+ minor +:+ "." +:+ patch +:+ short +:+ n +:+ ".dev" +:+ k) /\
  create_pep440_version
    ("v" +:+ major +:+ "." +:+ minor +:+ "." +:+ patch +:+ "-" +:+ "dev" +:+ "." +:+ n)
  = Ok (major +:+ "." +:+ minor +:+ "." +:+ patch +:+ ".dev" +:+ n).
Proof.
  intros Hmaj Hmin Hpat Hn Hk Hc.
  assert (is_simple_ident cycle = true /\
          string_forallb (fun c => negb (Ascii.eqb c "u")) cycle = true /\
          str.contains "." cycle = false) as (Hc1 & Hc2 & Hc3).
  { rewrite !elem_of_cons, elem_of_nil in Hc.
    by destruct Hc as [[= -> ->]|[[= -> ->]|[[= -> ->]|[]]]]. }
  pose proof (numeric_simple n Hn) as Hn1. pose proof (numeric_simple k Hk) as Hk1.
  pose proof (numeric_without "u" n eq_refl Hn) as Hn2.
  pose proof (numeric_without "u" k eq_refl Hk) as Hk2.
  pose proof (numeric_no_dot n Hn) as Hn3. pose proof (numeric_no_dot k Hk) as Hk3.
  split; [|split].
  - rewrite <- (dotted_one n).
    rewrite (create_rendered_prerelease major minor patch cycle [n] (short +:+ n) "");
      try done; try (by repeat constructor).
    + by rewrite append_nil_r.
    + intros d Hd Hs. apply (segments_cycle_two d _ cycle short n Hd Hs).
      by apply short_name_table.
  - rewrite <- (dotted_two n k).
    rewrite (create_rendered_prerelease major minor patch cycle [n; k]
               (short +:+ n) (".dev" +:+ k));
      try done; try (by repeat constructor).
    + by rewrite !append_assoc.
    + intros d Hd Hs. apply (segments_cycle_three d _ cycle short n k Hd Hs).
      by apply short_name_table.
  - rewrite <- (dotted_one n).
    rewrite (create_rendered_prerelease major minor patch "dev" [n] "" (".dev" +:+ n));
      try done; try (by repeat constructor).
    intros d Hd Hs. by apply (segments_dev_two d _ n Hd Hs).
Qed.

Lemma numeric_prerelease_converts_witness :
  create_pep440_version
    ("v" +:+ "2" +:+ "." +:+ "0" +:+ "." +:+ "11" +:+ "-" +:+ "beta" +:+ "." +:+ "3")
  = Ok "2.0.11b3" /\
  create_pep440_version
    ("v" +:+ "2" +:+ "." +:+ "0" +:+ "." +:+ "11" +:+ "-" +:+ "beta" +:+ "." +:+ "3"
     +:+ "." +:+ "40")
  = Ok "2.0.11b3.dev40" /\
  create_pep440_version
    ("v" +:+ "2" +:+ "." +:+ "0" +:+ "." +:+ "11" +:+ "-" +:+ "dev" +:+ "." +:+ "3")
  = Ok "2.0.11.dev3".
Proof.
  apply (numeric_prerelease_converts "2" "0" "11" "3" "40" "beta" "b");
    try reflexivity. repeat constructor.
Defined.

Lemma render_build (major minor patch id : string) (ids : list string) :
  render major minor patch [] (id :: ids)
  = "v" +:+ major +:+ "." +:+ minor +:+ "." +:+ patch +:+ "+" +:+ id +:+ dotted ids.
Proof. unfold render. by cbn [marked]. Qed.

(** X14. A release version with build metadata that holds no marker
    converts to the release followed by "+" and the first identifier of
    the build metadata. *)
Theorem build_metadata_converts (major minor patch commit_hash : string)
    (later : list string) :
  is_numeric major = true -> is_numeric minor = true -> is_numeric patch = true ->
  Forall (fun id => is_build_ident id = true) (commit_hash :: later) ->
  str.contains "unstaged"
    ("v" +:+ major +:+ "." +:+ minor +:+ "." +:+ patch +:+ "+" +:+ commit_hash
     +:+ dotted later)
  || str.contains "uncommitted"
       ("v" +:+ major +:+ "." +:+ minor +:+ "." +:+ patch +:+ "+" +:+ commit_hash
        +:+ dotted later) = false ->
  create_pep440_version
    ("v" +:+ major +:+ "." +:+ minor +:+ "." +:+ patch +:+ "+" +:+ commit_hash
     +:+ dotted later)
  = Ok (major +:+ "." +:+ minor +:+ "." +:+ patch +:+ "+" +:+ commit_hash).
Proof.
  intros Hmaj Hmin Hpat Hbuild Hu. rewrite <- render_build in *.
  rewrite create_rendered; try done.
  destruct (rendered_groupdict major minor patch [] (commit_hash :: later))
    as (_ & _ & _ & Hp & Hb).
  rewrite segments_absent by done.
  rewrite (label_first_segment _ (commit_hash +:+ dotted later) commit_hash); try done.
  - apply Forall_cons in Hbuild as [Hh _]. destruct commit_hash; [done|].
    by rewrite append_cons.
  - rewrite split_dotted; [done| |].
    + apply Forall_cons in Hbuild as [Hh _]. apply ident_no_dot. by destruct commit_hash.
    + apply Forall_cons in Hbuild as [_ Hl]. eapply Forall_impl; [exact Hl|].
      intros id Hid. apply ident_no_dot. by destruct id.
Qed.

Lemma build_metadata_converts_witness :
  create_pep440_version
    ("v" +:+ "0" +:+ "." +:+ "14" +:+ "." +:+ "0" +:+ "+" +:+ "f0e563586"
     +:+ dotted ["feature-MLB-2000"])
  = Ok "0.14.0+f0e563586".
Proof.
  apply (build_metadata_converts "0" "14" "0" "f0e563586" ["feature-MLB-2000"]);
    try reflexivity. by repeat constructor.
Defined.

End RenderedVersions.

Section Decomposition.

Implicit Types (r : regex) (g : gmap string string) (pre s t : string).

Lemma in_seq r1 r2 pre s g t g' s' :
  (t, g', s') ∈ run (Seq r1 r2) pre s g ->
  exists t1 g1 s1 t2,
    (t1, g1, s1) ∈ run r1 pre s g /\
    (t2, g', s') ∈ run r2 (pre +:+ t1) s1 g1 /\
    t = t1 +:+ t2 /\ s = t1 +:+ s1.
Proof.
  cbn. intros H. in_bind H. in_bind H. in_single H.
  pose proof (run_append _ _ _ _ _ _ _ Hin). by eexists _, _, _, _.
Qed.

Lemma in_lit c pre s g t g' s' :
  (t, g', s') ∈ run (Lit c) pre s g -> t = String c "" /\ g' = g /\ s = String c s'.
Proof.
  cbn. destruct s as [|d s]; [by intros ?%elem_of_nil|].
  destruct (Ascii.eqb_spec d c) as [->|]; [|by intros ?%elem_of_nil].
  intros H. by in_single H.
Qed.

Lemma in_alt r1 r2 pre s g x :
  x ∈ run (Alt r1 r2) pre s g -> x ∈ run r1 pre s g \/ x ∈ run r2 pre s g.
Proof. cbn. by rewrite elem_of_app. Qed.

Lemma in_class_run items pre s g t g' s' :
  (t, g', s') ∈ run (Class items) pre s g ->
  exists d, in_class items d = true /\ t = String d "" /\ g' = g /\ s = String d s'.
Proof.
  cbn. destruct s as [|d s]; [by intros ?%elem_of_nil|].
  destruct (existsb (in_item d) items) eqn:Hd; [|by intros ?%elem_of_nil].
  intros H. in_single H. by exists d.
Qed.

Lemma in_group name r pre s g t g' s' :
  (t, g', s') ∈ run (Group name r) pre s g ->
  exists g1, (t, g1, s') ∈ run r pre s g /\ g' = <[name := t]> g1.
Proof. cbn. intros H. in_bind H. in_single H. by eexists. Qed.

Lemma in_opt r pre s g t g' s' :
  (t, g', s') ∈ run (Opt r) pre s g ->
  (t, g', s') ∈ run r pre s g \/ t = "" /\ g' = g /\ s' = s.
Proof.
  unfold Opt. cbn. rewrite elem_of_app. intros [H|H]; [by left|].
  right. by in_single H.
Qed.

Lemma in_eol pre s g t g' s' :
  (t, g', s') ∈ run Eol pre s g ->
  t = "" /\ g' = g /\ s' = s /\ (s = "" \/ s = String newline "").
Proof.
  cbn. destruct s as [|c [|d s]]; try (by intros ?%elem_of_nil).
  - intros H. in_single H. by repeat split; try left.
  - destruct (Ascii.eqb_spec c newline) as [->|]; [|by intros ?%elem_of_nil].
    intros H. in_single H. by repeat split; try right.
Qed.

(** A pattern without groups leaves the groups as they are. *)
Lemma run_groupless r : forall pre s g t g' s',
  group_names r = [] -> (t, g', s') ∈ run r pre s g -> g' = g.
Proof.
  induction r as [| | |c|items|r1 IH1 r2 IH2|r1 IH1 r2 IH2|r IH|name r IH];
    intros pre s g t g' s'; cbn; try done.
  - intros _ H. by in_single H.
  - intros _. destruct pre; [|by intros ?%elem_of_nil]. intros H. by in_single H.
  - intros _. destruct s as [|c [|d s]]; try (by intros ?%elem_of_nil).
    + intros H. by in_single H.
    + destruct (Ascii.eqb c newline); [|by intros ?%elem_of_nil]. intros H. by in_single H.
  - intros _. destruct s as [|d s]; [by intros ?%elem_of_nil|].
    destruct (Ascii.eqb d c); [|by intros ?%elem_of_nil]. intros H. by in_single H.
  - intros _. destruct s as [|d s]; [by intros ?%elem_of_nil|].
    destruct (existsb (in_item d) items); [|by intros ?%elem_of_nil].
    intros H. by in_single H.
  - intros [H1 H2]%app_eq_nil H. in_bind H. in_bind H. in_single H.
    apply IH1 in Hin; [|done]. apply IH2 in Hin0; [|done]. congruence.
  - intros [H1 H2]%app_eq_nil. rewrite elem_of_app. intros [H|H]; eauto.
  - intros Hr. apply (star_iter_inv (fun g0 => g0 = g)); [|done].
    intros pre0 s0 g0 t0 g0' s0' -> H. eauto.
Qed.

(** What the numeric pattern matches is a numeric component. *)
Lemma in_numeric pre s g t g' s' :
  (t, g', s') ∈ run numeric pre s g -> is_numeric t = true /\ g' = g /\ s = t +:+ s'.
Proof.
  intros H. split; [|split].
  - unfold numeric in H. apply in_alt in H as [H|H].
    + by apply in_lit in H as (-> & _ & _).
    + apply in_seq in H as (t1 & g1 & s1 & t2 & H1 & H2 & -> & _).
      apply in_class_run in H1 as (d & Hd & -> & _ & _).
      rewrite in_class_nonzero in Hd. apply andb_true_iff in Hd as [Hd1 Hd2].
      apply negb_true_iff in Hd2. rewrite append_char. cbn [is_numeric].
      rewrite Hd2, Hd1. cbn. by apply (run_text is_digit) in H2.
  - by apply (run_groupless numeric pre s g t g' s').
  - by apply (run_append numeric pre s g t g' s').
Qed.

Lemma in_marked (mark : ascii) (name : string) (X : regex) pre s g t g' s' :
  group_names X = [] ->
  (t, g', s') ∈ run (Opt (Seq (Lit mark) (Group name X))) pre s g ->
  s = t +:+ s' /\
  (t = "" /\ g' = g \/ exists text, t = String mark text /\ g' = <[name := text]> g).
Proof.
  intros HX H. split; [by eapply run_append|].
  apply in_opt in H as [H|(-> & -> & _)]; [|by left].
  right. apply in_seq in H as (t1 & g1 & s1 & t2 & H1 & H2 & -> & _).
  apply in_lit in H1 as (-> & -> & _).
  apply in_group in H2 as (g2 & H2 & ->).
  apply run_groupless in H2 as ->; [|done]. by exists t2.
Qed.

(** A match of the pattern of the script splits the input into "v", the
    three numeric components with dots between them, the prerelease
    behind "-" and the build metadata behind "+" when they are there, and
    at most one newline. *)
Lemma semver_run_shape s t g' s' :
  (t, g', s') ∈ run semver_pattern "" s ∅ ->
  exists major minor patch,
    is_numeric major = true /\ is_numeric minor = true /\ is_numeric patch = true /\
    g' !! "major" = Some major /\ g' !! "minor" = Some minor /\
    g' !! "patch" = Some patch /\
    (s' = "" \/ s' = String newline "") /\
    s = "v" +:+ major +:+ "." +:+ minor +:+ "." +:+ patch
        +:+ with_mark "-" (g' !! "prerelease")
        +:+ with_mark "+" (g' !! "buildmetadata") +:+ s'.
Proof.
  unfold semver_pattern. intros H.
  apply in_seq in H as (t0 & g0 & s0 & ? & H0 & H & _ & Hs0).
  cbn in H0. in_single H0. clear Hs0.
  apply in_seq in H as (? & ? & s1 & ? & H1 & H & _ & _).
  apply in_lit in H1 as (-> & -> & ->).
  apply in_seq in H as (major & ? & s2 & ? & H2 & H & _ & _).
  apply in_group in H2 as (? & H2 & ->). apply in_numeric in H2 as (Hmaj & -> & ->).
  apply in_seq in H as (? & ? & s3 & ? & H3 & H & _ & _).
  apply in_lit in H3 as (-> & -> & ->).
  apply in_seq in H as (minor & ? & s4 & ? & H4 & H & _ & _).
  apply in_group in H4 as (? & H4 & ->). apply in_numeric in H4 as (Hmin & -> & ->).
  apply in_seq in H as (? & ? & s5 & ? & H5 & H & _ & _).
  apply in_lit in H5 as (-> & -> & ->).
  apply in_seq in H as (patch & ? & s6 & ? & H6 & H & _ & _).
  apply in_group in H6 as (? & H6 & ->). apply in_numeric in H6 as (Hpat & -> & ->).
  apply in_seq in H as (tp & gp & s7 & ? & H7 & H & _ & _).
  apply in_marked in H7 as (-> & H7); [|done].
  apply in_seq in H as (tb & gb & s8 & ? & H8 & H & _ & _).
  apply in_marked in H8 as (-> & H8); [|done].
  apply in_eol in H as (_ & -> & -> & Hnl).
  exists major, minor, patch. do 3 (split; [done|]).
  destruct H7 as [[-> ->]|(p & -> & ->)], H8 as [[-> ->]|(b & -> & ->)];
    rewrite ?lookup_insert_eq; rewrite ?lookup_insert_ne by done;
    rewrite ?lookup_insert_eq; rewrite ?lookup_insert_ne by done;
    rewrite ?lookup_insert_eq; rewrite ?lookup_insert_ne by done;
    rewrite ?lookup_insert_eq; rewrite ?lookup_insert_ne by done;
    rewrite ?lookup_insert_eq; rewrite ?lookup_empty;
    cbn [with_mark]; rewrite ?append_nil_l, ?append_char; done.
Qed.

(** X15. Whenever the pattern matches, the input is "v", the three
    components with dots between them, then "-" and the prerelease and
    "+" and the build metadata when they are there, then nothing or one
    newline: the groups and the marks between them are the whole input. *)
Theorem match_decomposes_input (s : string) (m : match_object) :
  re.match_ semver_pattern s = Some m ->
  exists major minor patch nl,
    groupdict m !! "major" = Some (Some major) /\
    groupdict m !! "minor" = Some (Some minor) /\
    groupdict m !! "patch" = Some (Some patch) /\
    (nl = "" \/ nl = String newline "") /\
    s = "v" +:+ major +:+ "." +:+ minor +:+ "." +:+ patch
        +:+ with_mark "-" (dict_get (groupdict m) "prerelease")
        +:+ with_mark "+" (dict_get (groupdict m) "buildmetadata") +:+ nl.
Proof.
  intros Hm. pose proof Hm as [Hp (t & s' & Hrun)]%match_run.
  apply semver_run_shape in Hrun
    as (major & minor & patch & _ & _ & _ & H4 & H5 & H6 & Hnl & Hs).
  exists major, minor, patch, s'. unfold dict_get.
  rewrite !(semver_groupdict_lookup s m) by (try done; repeat constructor).
  by rewrite H4, H5, H6.
Qed.

Lemma match_decomposes_input_witness :
  exists major minor patch nl,
    groupdict
      (MatchObject semver_pattern
                    (<["buildmetadata" := "f0e563586"]>
                       (<["prerelease" := "rc.1"]>
                          (<["patch" := "0"]> (<["minor" := "14"]> (<["major" := "0"]> ∅))))))
      !! "major" = Some (Some major) /\
    groupdict
      (MatchObject semver_pattern
                    (<["buildmetadata" := "f0e563586"]>
                       (<["prerelease" := "rc.1"]>
                          (<["patch" := "0"]> (<["minor" := "14"]> (<["major" := "0"]> ∅))))))
      !! "minor" = Some (Some minor) /\
    groupdict
      (MatchObject semver_pattern
                    (<["buildmetadata" := "f0e563586"]>
                       (<["prerelease" := "rc.1"]>
                          (<["patch" := "0"]> (<["minor" := "14"]> (<["major" := "0"]> ∅))))))
      !! "patch" = Some (Some patch) /\
    (nl = "" \/ nl = String newline "") /\
    "v0.14.0-rc.1+f0e563586"
    = "v" +:+ major +:+ "." +:+ minor +:+ "." +:+ patch
      +:+ with_mark "-"
            (dict_get
               (groupdict
                  (MatchObject semver_pattern
                        (<["buildmetadata" := "f0e563586"]>
                           (<["prerelease" := "rc.1"]>
                              (<["patch" := "0"]> (<["minor" := "14"]> (<["major" := "0"]> ∅)))))))
               "prerelease")
      +:+ with_mark "+"
            (dict_get
               (groupdict
                  (MatchObject semver_pattern
                        (<["buildmetadata" := "f0e563586"]>
                           (<["prerelease" := "rc.1"]>
                              (<["patch" := "0"]> (<["minor" := "14"]> (<["major" := "0"]> ∅)))))))
               "buildmetadata") +:+ nl.
Proof.
  apply (match_decomposes_input "v0.14.0-rc.1+f0e563586"
           (MatchObject semver_pattern
                 (<["buildmetadata" := "f0e563586"]>
                    (<["prerelease" := "rc.1"]>
                       (<["patch" := "0"]> (<["minor" := "14"]> (<["major" := "0"]> ∅))))))).
  vm_compute. reflexivity.
Defined.

(** X16. The conversion returns a version exactly when the input holds no
    marker, the pattern matches it, and its prerelease is absent or of one
    of the accepted shapes: alpha, beta or rc with one or two further
    parts, or dev with one further part. *)
Theorem conversion_succeeds_iff (s : string) :
  (exists out, create_pep440_version s = Ok out) <->
  str.contains "unstaged" s || str.contains "uncommitted" s = false /\
  exists m,
    re.match_ semver_pattern s = Some m /\
    (groupdict m !! "prerelease" = Some None \/
     exists p cycle part1 rest,
       groupdict m !! "prerelease" = Some (Some p) /\
       str.split "." p = cycle :: part1 :: rest /\
       (cycle ∈ ["alpha"; "beta"; "rc"] /\ length rest <= 1 \/
        cycle = "dev" /\ rest = [])).
Proof.
  split.
  - intros [out H].
    destruct (str.contains "unstaged" s || str.contains "uncommitted" s) eqn:Hu.
    { by rewrite (create_unstable s Hu) in H. }
    split; [done|].
    destruct (re.match_ semver_pattern s) as [m|] eqn:Hm.
    2: { unfold create_pep440_version in H. by rewrite Hu, Hm in H. }
    exists m. split; [done|].
    destruct (semver_release_present s m Hm) as (major & minor & patch & Hmaj & Hmin & Hpat).
    rewrite (create_matched s m major minor patch) in H by done.
    destruct (_get_prerelease_and_dev_segment (groupdict m)) as [segments|e] eqn:Hseg;
      [|done].
    assert (groupdict m !! "prerelease" = Some (groups m !! "prerelease")) as Hd
      by (apply (semver_groupdict_lookup s m); [done|repeat constructor]).
    rewrite Hd. destruct (groups m !! "prerelease") as [p|] eqn:Hp; [|by left].
    right. rewrite ?Hp in Hd.
    destruct (proj1 (segments_accepted (groupdict m) p Hd
                       (semver_group_nonempty s m "prerelease" p Hm Hd)))
      as (cycle & part1 & rest & H1 & H2); [by eexists|].
    by exists p, cycle, part1, rest.
  - intros (Hu & m & Hm & Hpre).
    destruct (semver_release_present s m Hm) as (major & minor & patch & Hmaj & Hmin & Hpat).
    rewrite (create_matched s m major minor patch) by done.
    destruct Hpre as [Hd|(p & cycle & part1 & rest & Hd & H1 & H2)].
    + rewrite segments_absent by done. by eexists.
    + destruct (proj2 (segments_accepted (groupdict m) p Hd
                         (semver_group_nonempty s m "prerelease" p Hm Hd)))
        as [[a b] ->]; [by exists cycle, part1, rest|]. by eexists.
Qed.

End Decomposition.

(** * The output grammar and identifiers that are not numeric *)

Section OutputForm.

Implicit Types (s a b x y : string) (c : ascii).





Lemma starts_outside_dot x : starts_outside is_digit ("." +:+ x) = true.
Proof. reflexivity. Qed.






End OutputForm.

(** The outputs of the table of the self-test fit the output grammar. *)
Lemma table_output_fits_form :
  spec_output_form "0.14.0a1.dev2+f0e563586" /\ spec_output_form "0.14.0rc1" /\
  spec_output_form "0.13.1.dev1" /\ spec_output_form "1.15.0".
Proof.
  split; [|split; [|split]].
  - exists "0", "14", "0", "a1", ".dev2", "+f0e563586".
    do 3 (split; [done|]). split; [right; exists "a", "1"; split; [repeat constructor|done]|].
    split; [right; by exists "2"|]. split; [right; by eexists|done].
  - exists "0", "14", "0", "rc1", "", "".
    do 3 (split; [done|]). split; [right; exists "rc", "1"; split; [repeat constructor|done]|].
    split; [by left|]. split; [by left|done].
  - exists "0", "13", "1", "", ".dev1", "".
    do 3 (split; [done|]). split; [by left|].
    split; [right; by exists "1"|]. split; [by left|done].
  - exists "1", "15", "0", "", "", "".
    do 3 (split; [done|]). split; [by left|]. split; [by left|]. split; [by left|done].
Qed.


